(** * aw-server: the heartbeat endpoint of [aw_server/api.py]

    A shallow embedding of [ServerAPI._last_event], [ServerAPI.heartbeat]
    and the [check_bucket_exists] decorator, together with the process-wide
    [last_event_cache] dictionary they share.

    Modelling conventions.
    - A [datetime] is the number of microseconds since the epoch and a
      [timedelta] a number of microseconds, both in [Z] (Python keeps both
      with microsecond resolution; the year range of [datetime] is not
      modelled).  [timedelta(seconds=60)] is [60000000].
    - An [Event] is a value: [api.py] never assigns to a field of an event,
      and the datastore calls are taken not to change the objects handed to
      them.  What [insert] and [replace] return is a value of its own, which
      [heartbeat] does not bind.
    - [datetime.now(tz=timezone.utc)] is read at most once in a call; its
      reading is the argument [now].
    - [last_event.data == heartbeat.data] is Python's comparison of
      dictionaries, [data_eq], under which [True == 1]; it is not the
      equality of the two values in Rocq.
    - The datastore ([self.db], package [aw_datastore]) and
      [transforms.heartbeat_merge] (package [aw_core]) are not part of
      [api.py].  The handler is embedded over an arbitrary datastore (a type
      class) and an arbitrary merge function (a section variable).
    - A Python call either returns or raises, and a raise leaves the global
      cache as it was at that moment: computations are functions
      [state -> state * (exn + A)]. *)

From stdpp Require Import gmap strings list fin_maps sorting pretty.
From Stdlib Require Import ZArith Lia.

Local Open Scope Z_scope.

(** ** Data model *)

(** The values an event's [data] dictionary holds. *)
Inductive value : Type :=
  | VNone
  | VBool (b : bool)
  | VInt (n : Z)
  | VStr (s : string).

#[global] Instance value_eq_dec : EqDecision value.
Proof. solve_decision. Defined.

(** [aw_core.models.Event]: [id] is [None] until a datastore assigns one. *)
Module Event.
Record t : Type := mk {
  id : option Z;
  timestamp : Z;
  duration : Z;
  data : gmap string value
}.
End Event.

#[global] Instance Event_eq_dec : EqDecision Event.t.
Proof. solve_decision. Defined.

(** Python's [==] on the values: a boolean equals the integer it stands
    for ([True == 1], [False == 0]), and values of otherwise different kinds
    are unequal. *)
Definition py_eq (x y : value) : bool :=
  match x, y with
  | VNone, VNone => true
  | VBool a, VBool b => bool_decide (a = b)
  | VInt m, VInt n => bool_decide (m = n)
  | VBool a, VInt n => bool_decide (n = if a then 1 else 0)
  | VInt n, VBool a => bool_decide (n = if a then 1 else 0)
  | VStr a, VStr b => bool_decide (a = b)
  | _, _ => false
  end.

(** Python's [==] on the [data] dictionaries: the same keys, and under each
    key values that are [==]. *)
Definition data_eq (d1 d2 : gmap string value) : bool :=
  bool_decide
    (map_relation (fun _ x y => py_eq x y = true)
                  (fun _ _ => False) (fun _ _ => False) d1 d2).

(** Exceptions: [BadRequest(type, message)] of [aw_server.exceptions], and
  whatever a datastore call raises. *)
Inductive exn : Type :=
| BadRequest (type message : string)
| StoreError (what : string).

#[global] Instance exn_eq_dec : EqDecision exn.
Proof. solve_decision. Defined.

(** The interface [api.py] uses of [self.db]:
    [db.buckets()], [db[b].get(limit, starttime, endtime)],
    [db[b].insert(event)] and [db[b].replace(event_id, event)].
    Every call may change the store and may raise; [db_insert] and
    [db_replace] give the value the Python call returns. *)
Class Datastore (S : Type) : Type := {
  db_buckets : S -> S * (exn + gset string);
  db_get : string -> Z -> option Z -> option Z -> S -> S * (exn + list Event.t);
  db_insert : string -> Event.t -> S -> S * (exn + Event.t);
  db_replace : string -> option Z -> Event.t -> S -> S * (exn + Event.t)
}.

(** [timedelta(seconds=60)], the age after which a cached event is dropped. *)
Definition STALE_WINDOW : Z := 60000000.

(** ** The state-and-exception monad *)

Section Monad.

Context {S : Type}.

(** The global [last_event_cache] and [self.db]. *)
Record state : Type := State {
  last_event_cache : gmap string Event.t;
  db : S
}.

Definition M (A : Type) : Type := state -> state * (exn + A).

Definition ret {A} (x : A) : M A := fun st => (st, inr x).

Definition bind {A B} (m : M A) (k : A -> M B) : M B :=
  fun st =>
    match m st with
    | (st', inl e) => (st', inl e)
    | (st', inr x) => k x st'
    end.

Definition raise {A} (e : exn) : M A := fun st => (st, inl e).

(** A call into the datastore. *)
Definition call {A} (op : S -> S * (exn + A)) : M A :=
  fun st =>
    match op (db st) with
    | (s', r) => (State (last_event_cache st) s', r)
    end.

(** [last_event_cache[bucket_id]] when [bucket_id in last_event_cache.keys()]. *)
Definition cache_lookup (bucket_id : string) : M (option Event.t) :=
  fun st => (st, inr (last_event_cache st !! bucket_id)).

(** [last_event_cache.pop(bucket_id)] *)
Definition cache_pop (bucket_id : string) : M unit :=
  fun st => (State (delete bucket_id (last_event_cache st)) (db st), inr tt).

(** [last_event_cache[bucket_id] = event] *)
Definition cache_set (bucket_id : string) (event : Event.t) : M unit :=
  fun st => (State (<[bucket_id := event]> (last_event_cache st)) (db st), inr tt).

End Monad.

Arguments state S : clear implicits.
Arguments M S A : clear implicits.
Arguments State {S} _ _.

Notation "x <~ m ;; k" := (bind m (fun x => k))
  (at level 100, m at next level, right associativity).
Notation "m ;;; k" := (bind m (fun _ => k))
  (at level 100, right associativity).

(** ** The endpoint *)

Section API.

Context {S : Type} `{Datastore S}.

(** The type of [pulsetime], and [aw_core.transforms.heartbeat_merge]. *)
Context {Pulse : Type}.
Variable heartbeat_merge : Event.t -> Event.t -> Pulse -> option Event.t.

(** *** [check_bucket_exists] *)

Definition check_bucket_exists {A} (f : string -> M S A) (bucket_id : string)
  : M S A :=
  bs <~ call db_buckets ;;
  if decide (bucket_id ∈ bs) then f bucket_id
  else raise (BadRequest "NoSuchBucket" ("There's no bucket named " +:+ bucket_id)).

(** *** [ServerAPI._last_event] *)

(** The test of line 120; [now] is the reading of
    [datetime.now(tz=timezone.utc)]. *)
Definition too_old (now : Z) (last_event : Event.t) : Prop :=
  Event.timestamp last_event + Event.duration last_event < now - STALE_WINDOW.

#[global] Instance too_old_dec now e : Decision (too_old now e).
Proof. unfold too_old. apply _. Defined.

(** Lines 131-132: the read from the datastore. *)
Definition store_fallback (bucket_id : string) (timestamp : Z)
  : M S (option Event.t) :=
  events <~ call (db_get bucket_id 1 None (Some timestamp)) ;;
  ret (head events).

Definition _last_event (now : Z) (bucket_id : string) (timestamp : Z)
  : M S (option Event.t) :=
  cached <~ cache_lookup bucket_id ;;
  last_event <~
    match cached with
    | Some last_event =>
        if decide (too_old now last_event)
        then cache_pop bucket_id ;;; ret None
        else if decide (Event.timestamp last_event > timestamp)
        then ret None
        else ret (Some last_event)
    | None => ret None
    end ;;
  match last_event with
  | None => store_fallback bucket_id timestamp
  | Some last_event => ret (Some last_event)
  end.

(** *** [ServerAPI.heartbeat] *)

(** Lines 191-193, reached from the three branches that do not merge. *)
Definition insert_new (bucket_id : string) (heartbeat : Event.t) : M S Event.t :=
  call (db_insert bucket_id heartbeat) ;;;
  cache_set bucket_id heartbeat ;;;
  ret heartbeat.

(** Lines 181-183. *)
Definition replace_last (bucket_id : string) (last_event merged : Event.t)
  : M S Event.t :=
  call (db_replace bucket_id (Event.id last_event) merged) ;;;
  cache_set bucket_id merged ;;;
  ret merged.

(** The function under the decorator.  [if last_event:] tests for [None]:
    an event always carries its fields and is never an empty mapping.
    [last_event.data == heartbeat.data] is Python's comparison, [data_eq]. *)
Definition heartbeat_body (now : Z) (bucket_id : string)
    (heartbeat : Event.t) (pulsetime : Pulse) : M S Event.t :=
  last_event <~ _last_event now bucket_id (Event.timestamp heartbeat) ;;
  match last_event with
  | Some last_event =>
      if data_eq (Event.data last_event) (Event.data heartbeat) then
        match heartbeat_merge last_event heartbeat pulsetime with
        | Some merged => replace_last bucket_id last_event merged
        | None => insert_new bucket_id heartbeat
        end
      else insert_new bucket_id heartbeat
  | None => insert_new bucket_id heartbeat
  end.

(** [@check_bucket_exists def heartbeat(self, bucket_id, heartbeat, pulsetime)] *)
Definition heartbeat (now : Z) (bucket_id : string)
    (heartbeat : Event.t) (pulsetime : Pulse) : M S Event.t :=
  check_bucket_exists
    (fun bucket_id => heartbeat_body now bucket_id heartbeat pulsetime)
    bucket_id.

(** *** The handler without the cache

    The specification's reading of a disabled cache: every lookup is the
    datastore read, and [last_event_cache] is neither read nor written. *)
Definition heartbeat_store_only (now : Z) (bucket_id : string)
    (heartbeat : Event.t) (pulsetime : Pulse) : M S Event.t :=
  check_bucket_exists
    (fun bucket_id =>
       last_event <~ store_fallback bucket_id (Event.timestamp heartbeat) ;;
       match last_event with
       | Some last_event =>
           if data_eq (Event.data last_event) (Event.data heartbeat) then
             match heartbeat_merge last_event heartbeat pulsetime with
             | Some merged =>
                 call (db_replace bucket_id (Event.id last_event) merged) ;;;
                 ret merged
             | None => call (db_insert bucket_id heartbeat) ;;; ret heartbeat
             end
           else call (db_insert bucket_id heartbeat) ;;; ret heartbeat
       | None => call (db_insert bucket_id heartbeat) ;;; ret heartbeat
       end)
    bucket_id.

(** *** Vocabulary for the statements below *)

(** The cache a lookup leaves behind: the entry of the bucket is gone when
    it was too old, and nothing else has changed. *)
Definition cache_after_lookup (now : Z) (bucket_id : string)
    (cache : gmap string Event.t) : gmap string Event.t :=
  match cache !! bucket_id with
  | Some cached =>
      if decide (too_old now cached) then delete bucket_id cache else cache
  | None => cache
  end.

(** No event to merge into: nothing was found, or the data differ, or the
    merge function declines. *)
Definition nothing_to_merge (last_event : option Event.t)
    (heartbeat : Event.t) (pulsetime : Pulse) : Prop :=
  match last_event with
  | Some last_event =>
      data_eq (Event.data last_event) (Event.data heartbeat) = false
      ∨ heartbeat_merge last_event heartbeat pulsetime = None
  | None => True
  end.

(** From [st2] the call wrote [event] through [db_insert], cached it under
    the bucket and ended in [st']. *)
Definition inserted (bucket_id : string) (event : Event.t)
    (st2 st' : state S) : Prop :=
  ∃ s3 stored,
    db_insert bucket_id event (db st2) = (s3, inr stored)
    ∧ st' = State (<[bucket_id := event]> (last_event_cache st2)) s3.

(** From [st2] the call wrote [merged] over [last_event] through
    [db_replace], cached it under the bucket and ended in [st']. *)
Definition replaced (bucket_id : string) (last_event merged : Event.t)
    (st2 st' : state S) : Prop :=
  ∃ s3 returned,
    db_replace bucket_id (Event.id last_event) merged (db st2) = (s3, inr returned)
    ∧ st' = State (<[bucket_id := merged]> (last_event_cache st2)) s3.

(** Heartbeats submitted one after the other to one bucket: each request
    carries the clock reading of its call, and the outcomes are collected. *)
Fixpoint serve (handler : Z -> string -> Event.t -> Pulse -> M S Event.t)
    (bucket_id : string) (requests : list (Z * Event.t * Pulse))
    (st : state S) : list (exn + Event.t) :=
  match requests with
  | [] => []
  | (now, heartbeat, pulsetime) :: rest =>
      match handler now bucket_id heartbeat pulsetime st with
      | (st', r) => r :: serve handler bucket_id rest st'
      end
  end.

End API.

(** ** [aw_core.transforms.heartbeat_merge] *)

Module transforms.

(** Modelled from the spec: [heartbeat_merge] of the package [aw_core],
    which [api.py] imports and which is not among the sources; this is
    section 4.2 of the specification, with the pulse window in microseconds. *)
Definition heartbeat_merge (last_event heartbeat : Event.t) (pulsetime : Z)
  : option Event.t :=
  let last_end := Event.timestamp last_event + Event.duration last_event in
  if decide (Event.timestamp heartbeat <= last_end + pulsetime) then
    Some (Event.mk (Event.id last_event)
                   (Event.timestamp last_event)
                   (Z.max last_end (Event.timestamp heartbeat)
                    - Event.timestamp last_event)
                   (Event.data last_event))
  else None.

End transforms.

(** ** A datastore in memory *)

Module MemoryStore.

(** Modelled from the spec: the event store of the package [aw_datastore],
    which is not among the sources; this is the collaborator of section 6.
    A bucket is its list of events, most recent first.  [faults] scripts
    outages: an entry [true] makes the call that consumes it raise
    [StoreUnavailable]. *)
Record t : Type := mk {
  contents : gmap string (list Event.t);
  next_id : Z;
  faults : list bool
}.

Definition attempt {A} (op : t -> t * (exn + A)) (s : t) : t * (exn + A) :=
  match faults s with
  | true :: fs =>
      (mk (contents s) (next_id s) fs, inl (StoreError "StoreUnavailable"))
  | false :: fs => op (mk (contents s) (next_id s) fs)
  | [] => op s
  end.

Definition in_bucket {A} (bucket_id : string)
    (op : list Event.t -> t -> t * (exn + A)) (s : t) : t * (exn + A) :=
  match contents s !! bucket_id with
  | Some events => op events s
  | None => (s, inl (StoreError "NoSuchBucket"))
  end.

Definition in_range (starttime endtime : option Z) (e : Event.t) : bool :=
  match starttime with
  | Some a => bool_decide (a <= Event.timestamp e)
  | None => true
  end &&
  match endtime with
  | Some b => bool_decide (Event.timestamp e <= b)
  | None => true
  end.

(** A negative [limit] means no limit. *)
Definition limited {A} (limit : Z) (l : list A) : list A :=
  if decide (limit < 0) then l else take (Z.to_nat limit) l.

(** Keep the bucket ordered by timestamp, most recent first. *)
Fixpoint place (e : Event.t) (events : list Event.t) : list Event.t :=
  match events with
  | [] => [e]
  | x :: rest =>
      if decide (Event.timestamp x <= Event.timestamp e) then e :: x :: rest
      else x :: place e rest
  end.

(** The order the bucket is kept in. *)
Definition recent_first (events : list Event.t) : Prop :=
  StronglySorted (fun x y => Event.timestamp y <= Event.timestamp x) events.

(** Modelled from the spec: [buckets()], the ids of the buckets. *)
Definition buckets (s : t) : t * (exn + gset string) :=
  (s, inr (dom (contents s))).

(** Modelled from the spec: [get(limit, starttime, endtime)], the events
    within the bounds, most recent first, at most [limit] of them. *)
Definition get (bucket_id : string) (limit : Z) (starttime endtime : option Z)
  : t -> t * (exn + list Event.t) :=
  in_bucket bucket_id (fun events s =>
    (s, inr (limited limit (List.filter (in_range starttime endtime) events)))).

(** Modelled from the spec: [insert(event)], which assigns an identity if
    absent and returns the stored event. *)
Definition insert (bucket_id : string) (e : Event.t) : t -> t * (exn + Event.t) :=
  in_bucket bucket_id (fun events s =>
    match Event.id e with
    | Some _ =>
        (mk (<[bucket_id := place e events]> (contents s)) (next_id s) (faults s),
         inr e)
    | None =>
        let stored := Event.mk (Some (next_id s)) (Event.timestamp e)
                               (Event.duration e) (Event.data e) in
        (mk (<[bucket_id := place stored events]> (contents s))
            (next_id s + 1) (faults s),
         inr stored)
    end).

(** Modelled from the spec: [replace(event_id, event)], which overwrites by
    identity and keeps the position. *)
Definition replace (bucket_id : string) (event_id : option Z) (e : Event.t)
  : t -> t * (exn + Event.t) :=
  in_bucket bucket_id (fun events s =>
    (mk (<[bucket_id :=
             List.map (fun x => if decide (Event.id x = event_id) then e else x)
                      events]> (contents s))
        (next_id s) (faults s),
     inr e)).

#[global] Instance datastore : Datastore t := {
  db_buckets := attempt buckets;
  db_get b limit starttime endtime := attempt (get b limit starttime endtime);
  db_insert b e := attempt (insert b e);
  db_replace b i e := attempt (replace b i e)
}.

End MemoryStore.

(** ** Sample data *)

Module Samples.

Definition sec (n : Z) : Z := n * 1000000.

Definition app (name : string) : gmap string value := {[ "app"%string := VStr name ]}.

(** A heartbeat as a watcher submits it: no identity, no duration. *)
Definition beat (t : Z) (d : gmap string value) : Event.t :=
  Event.mk None (sec t) 0 d.

(** One bucket ["b"], empty, and nothing cached. *)
Definition empty_bucket : MemoryStore.t :=
  MemoryStore.mk {[ "b"%string := [] ]} 0 [].

Definition cold : state MemoryStore.t := State ∅ empty_bucket.

(** The bucket holds one event, which is also the cached one. *)
Definition stored_X : Event.t := Event.mk (Some 0) (sec 100) (sec 3) (app "X").

Definition one_event (faults : list bool) : MemoryStore.t :=
  MemoryStore.mk {[ "b"%string := [stored_X] ]} 1 faults.

Definition warm (faults : list bool) : state MemoryStore.t :=
  State {[ "b"%string := stored_X ]} (one_event faults).

(** The bucket after a second event, the state Y at 50 s, was inserted. *)
Definition two_events : MemoryStore.t :=
  MemoryStore.mk
    {[ "b"%string := [stored_X; Event.mk (Some 1) (sec 50) 0 (app "Y")] ]} 2 [].

(** Out of order: the state X at 100 s, the state Y at 90 s, then Y at
    110 s, each with a pulse window of 30 s and served at 120 s. *)
Definition out_of_order : list (Z * Event.t * Z) :=
  [ (sec 120, beat 100 (app "X"), sec 30);
    (sec 120, beat 90 (app "Y"), sec 30);
    (sec 120, beat 110 (app "Y"), sec 30) ].

(** Scenario 7 of the specification's testable properties. *)
Definition scenario : list (Z * Event.t * Z) :=
  [ (sec 101, beat 100 (app "X"), sec 5);
    (sec 104, beat 103 (app "X"), sec 5);
    (sec 111, beat 110 (app "X"), sec 5) ].

End Samples.

(** ** The other endpoints of [ServerAPI] *)

(** The rest of what [api.py] uses of [self.db]: [db.buckets()] with the
    dictionaries it maps the bucket ids to, in the order of the mapping,
    [db[b].metadata()], [db.create_bucket(b, type=, client=, hostname=,
    created=)], [db.delete_bucket(b)], and [db[b].insert(events)] with a
    list of events. *)
Class BucketAdmin (S : Type) : Type := {
  db_bucket_dicts : S -> S * (exn + list (string * gmap string value));
  db_metadata : string -> S -> S * (exn + gmap string value);
  db_create_bucket :
    string -> string -> string -> string -> Z -> S -> S * (exn + unit);
  db_delete_bucket : string -> S -> S * (exn + unit);
  db_insert_list : string -> list Event.t -> S -> S * (exn + option Event.t)
}.

Section Endpoints.

Context {S : Type} `{Datastore S} `{BucketAdmin S}.

(** [datetime.isoformat] and [Event.to_json_dict]. *)
Variable isoformat : Z -> string.
Context {J : Type}.
Variable to_json_dict : Event.t -> J.

(** The loop of [ServerAPI.get_buckets], lines 57-63, over the items of the
    dictionary [buckets]. *)
Fixpoint get_buckets_loop (buckets : list (string * gmap string value))
  : M S (list (string * gmap string value)) :=
  match buckets with
  | [] => ret []
  | (b, bucket) :: rest =>
      last_events <~ call (db_get b 1 None None) ;;
      let bucket :=
        match last_events with
        | last_event :: _ =>
            let last_updated :=
              Event.timestamp last_event + Event.duration last_event in
            <["last_updated"%string := VStr (isoformat last_updated)]> bucket
        | [] => bucket
        end in
      rest <~ get_buckets_loop rest ;;
      ret ((b, bucket) :: rest)
  end.

(** [ServerAPI.get_buckets] *)
Definition get_buckets : M S (list (string * gmap string value)) :=
  buckets <~ call db_bucket_dicts ;;
  get_buckets_loop buckets.

(** One bucket of the listing against the same bucket of [db.buckets()]:
    the same id, and the dictionary as it was or with [last_updated] set
    from some event. *)
Definition bucket_listed (before after : string * gmap string value) : Prop :=
  after.1 = before.1
  ∧ (after.2 = before.2
     ∨ ∃ last_event,
         after.2 = <["last_updated"%string :=
                       VStr (isoformat (Event.timestamp last_event
                                        + Event.duration last_event))]>
                     before.2).

(** What the loop does to one bucket when the read is made on [s1]. *)
Definition with_last_updated (s1 : S) (item : string * gmap string value)
  : string * gmap string value :=
  match db_get item.1 1 None None s1 with
  | (_, inr (last_event :: _)) =>
      (item.1,
       <["last_updated"%string :=
           VStr (isoformat (Event.timestamp last_event
                            + Event.duration last_event))]> item.2)
  | _ => item
  end.

(** [ServerAPI.get_bucket_metadata] *)
Definition get_bucket_metadata (bucket_id : string) : M S (gmap string value) :=
  check_bucket_exists (fun bucket_id => call (db_metadata bucket_id)) bucket_id.

(** [ServerAPI.create_bucket]; [now] is the reading of [datetime.now()]. *)
Definition create_bucket (now : Z) (bucket_id event_type client hostname : string)
  : M S unit :=
  bs <~ call db_buckets ;;
  if decide (bucket_id ∈ bs) then
    raise (BadRequest "BucketExists"
             "A bucket with this name already exists, cannot create it")
  else
    call (db_create_bucket bucket_id event_type client hostname now) ;;;
    ret tt.

(** [ServerAPI.delete_bucket]; [testing] is [self.testing]. *)
Definition delete_bucket (testing : bool) (bucket_id : string) : M S unit :=
  check_bucket_exists
    (fun bucket_id =>
       if negb testing then
         raise (BadRequest "PermissionDenied"
                  "Deleting buckets is only permitted if aw-server is running in testing mode")
       else
         call (db_delete_bucket bucket_id) ;;;
         ret tt)
    bucket_id.

(** [ServerAPI.get_events]; the source's defaults are [limit=-1],
    [start=None], [end=None]. *)
Definition get_events (bucket_id : string) (limit : Z) (start end_ : option Z)
  : M S (list J) :=
  check_bucket_exists
    (fun bucket_id =>
       events <~ call (db_get bucket_id limit start end_) ;;
       ret (to_json_dict <$> events))
    bucket_id.

(** [ServerAPI.create_events]: [events[0] if len(events) == 1 else events]
    goes to [insert]. *)
Definition create_events (bucket_id : string) (events : list Event.t)
  : M S (option Event.t) :=
  check_bucket_exists
    (fun bucket_id =>
       match events with
       | [event] =>
           stored <~ call (db_insert bucket_id event) ;;
           ret (Some stored)
       | _ => call (db_insert_list bucket_id events)
       end)
    bucket_id.

End Endpoints.

(** ** Views and the log *)

Section ViewsAndLog.

(** [views.create_view] of [aw_core], over whatever keeps the views. *)
Context {V : Type}.
Variable views_create_view : gmap string value -> V -> V * (exn + unit).

(** [ServerAPI.create_view].  The function assigns to keys of the
    dictionary it is handed: the result carries that dictionary as the call
    leaves it, beside the outcome of [views.create_view].  [now_iso] is
    [datetime.now(timezone.utc).isoformat()]. *)
Definition create_view (now_iso : string) (viewname : string)
    (view : gmap string value) (v : V)
  : gmap string value * (V * (exn + unit)) :=
  let view := <["name"%string := VStr viewname]> view in
  let view :=
    if decide (view !! "created"%string = None)
    then <["created"%string := VStr now_iso]> view
    else view in
  (view, views_create_view view v).

(** [json.loads], which raises or returns. *)
Context {E Json : Type}.
Variable json_loads : string -> E + Json.

(** The loop of [ServerAPI.get_log], lines 221-222, with [payload] as it
    stands. *)
Fixpoint get_log_loop (lines : list string) (payload : list Json)
  : E + list Json :=
  match lines with
  | [] => inr payload
  | line :: rest =>
      match json_loads line with
      | inl e => inl e
      | inr entry => get_log_loop rest (payload ++ [entry])
      end
  end.

(** [ServerAPI.get_log] on the lines [log_file.readlines()] gives. *)
Definition get_log (readlines : list string) : E + (list Json * Z) :=
  match get_log_loop (reverse readlines) [] with
  | inl e => inl e
  | inr payload => inr (payload, 200)
  end.

End ViewsAndLog.

(** ** A datastore that records the calls it receives *)

Module Traced.

Inductive entry : Type :=
  | Buckets
  | Get (bucket_id : string) (limit : Z) (starttime endtime : option Z)
  | Insert (bucket_id : string) (event : Event.t)
  | Replace (bucket_id : string) (event_id : option Z) (event : Event.t).

(** Any datastore, with the list of the calls made to it so far. *)
Record t (S : Type) : Type := mk {
  inner : S;
  log : list entry
}.

Arguments mk {S} _ _.
Arguments inner {S} _.
Arguments log {S} _.

Definition record {S A} (c : entry) (op : S -> S * (exn + A)) (s : t S)
  : t S * (exn + A) :=
  match op (inner s) with
  | (s', r) => (mk s' (log s ++ [c]), r)
  end.

#[global] Instance datastore {S : Type} `{Datastore S} : Datastore (t S) := {
  db_buckets := record Buckets db_buckets;
  db_get b limit starttime endtime :=
    record (Get b limit starttime endtime) (db_get b limit starttime endtime);
  db_insert b e := record (Insert b e) (db_insert b e);
  db_replace b i e := record (Replace b i e) (db_replace b i e)
}.

End Traced.

(** ** Bucket administration in memory *)

Module MemoryAdmin.

(** Modelled from the spec: the bucket side of [aw_datastore], which the
    specification names as an external collaborator (creation, deletion and
    listing of buckets).  The store of [MemoryStore] keeps no metadata: a
    bucket's dictionary is empty, and a new bucket starts without events. *)
Definition bucket_dicts (s : MemoryStore.t)
  : MemoryStore.t * (exn + list (string * gmap string value)) :=
  (s, inr ((fun kv : string * list Event.t => (kv.1, (∅ : gmap string value)))
             <$> map_to_list (MemoryStore.contents s))).

Definition metadata (bucket_id : string)
  : MemoryStore.t -> MemoryStore.t * (exn + gmap string value) :=
  MemoryStore.in_bucket bucket_id (fun _ s => (s, inr ∅)).

Definition create_bucket (bucket_id event_type client hostname : string)
    (created : Z) (s : MemoryStore.t) : MemoryStore.t * (exn + unit) :=
  (MemoryStore.mk (<[bucket_id := []]> (MemoryStore.contents s))
     (MemoryStore.next_id s) (MemoryStore.faults s),
   inr tt).

Definition delete_bucket (bucket_id : string)
  : MemoryStore.t -> MemoryStore.t * (exn + unit) :=
  MemoryStore.in_bucket bucket_id (fun _ s =>
    (MemoryStore.mk (delete bucket_id (MemoryStore.contents s))
       (MemoryStore.next_id s) (MemoryStore.faults s),
     inr tt)).

Definition insert_list (bucket_id : string) (events : list Event.t)
  : MemoryStore.t -> MemoryStore.t * (exn + option Event.t) :=
  MemoryStore.in_bucket bucket_id (fun stored s =>
    (MemoryStore.mk
       (<[bucket_id := foldr MemoryStore.place stored events]>
          (MemoryStore.contents s))
       (MemoryStore.next_id s) (MemoryStore.faults s),
     inr None)).

#[global] Instance admin : BucketAdmin MemoryStore.t := {
  db_bucket_dicts := MemoryStore.attempt bucket_dicts;
  db_metadata b := MemoryStore.attempt (metadata b);
  db_create_bucket b event_type client hostname created :=
    MemoryStore.attempt (create_bucket b event_type client hostname created);
  db_delete_bucket b := MemoryStore.attempt (delete_bucket b);
  db_insert_list b events := MemoryStore.attempt (insert_list b events)
}.

End MemoryAdmin.

(** ** More sample data *)

Module Fixtures.

Import Samples.

(** The event [stored_X] after a heartbeat at 105 s was merged into it. *)
Definition merged_X : Event.t := Event.mk (Some 0) (sec 100) (sec 5) (app "X").

(** [warm] over a datastore that records its calls. *)
Definition traced_warm : state (Traced.t MemoryStore.t) :=
  State {[ "b"%string := stored_X ]} (Traced.mk (one_event []) []).


(** [cold] after the heartbeat at 100 s was inserted. *)
Definition after_first : state MemoryStore.t :=
  State {[ "b"%string := beat 100 (app "X") ]}
    (MemoryStore.mk
       {[ "b"%string := [Event.mk (Some 0) (sec 100) 0 (app "X")] ]} 1 []).

(** [warm] after its bucket was deleted: the cache still holds the event. *)
Definition after_delete : state MemoryStore.t :=
  State {[ "b"%string := stored_X ]} (MemoryStore.mk ∅ 1 []).

(** [cold] after a second bucket ["c"] was created. *)
Definition two_buckets : MemoryStore.t :=
  MemoryStore.mk {[ "b"%string := []; "c"%string := [] ]} 0 [].

(** The cached event says [{"n": 1}], the heartbeat [{"n": True}]. *)
Definition counted : state (Traced.t MemoryStore.t) :=
  State {[ "b"%string := Event.mk (Some 0) (sec 100) 0 {[ "n"%string := VInt 1 ]} ]}
    (Traced.mk
       (MemoryStore.mk
          {[ "b"%string :=
               [Event.mk (Some 0) (sec 100) 0 {[ "n"%string := VInt 1 ]}] ]}
          1 [])
       []).

(** A stand-in for [datetime.isoformat]: the microseconds in decimal. *)
Definition stamp (t : Z) : string := pretty t.

(** A stand-in for [json.loads]: the empty line does not parse, any other
    line parses to its length. *)
Definition parse (line : string) : string + nat :=
  if decide (line = ""%string) then inl "Expecting value"%string
  else inr (String.length line).

End Fixtures.

(** * Properties *)

(** ** The lookup *)

Section Lookup.

Context {S : Type} `{Datastore S}.

(** What the datastore read leaves behind: the cache it found, the store
    the call produced, and the first event of the answer, if any. *)
Lemma store_fallback_run (bucket_id : string) (timestamp : Z) (st : state S) :
  store_fallback bucket_id timestamp st =
    match db_get bucket_id 1 None (Some timestamp) (db st) with
    | (s', inl e) => (State (last_event_cache st) s', inl e)
    | (s', inr events) => (State (last_event_cache st) s', inr (head events))
    end.
Proof.
  unfold store_fallback, bind, call, ret.
  destruct (db_get bucket_id 1 None (Some timestamp) (db st)) as [s' [e|events]];
    reflexivity.
Qed.

Lemma last_event_run (now : Z) (bucket_id : string) (timestamp : Z) (st : state S) :
  _last_event now bucket_id timestamp st =
    match last_event_cache st !! bucket_id with
    | Some cached =>
        if decide (too_old now cached)
        then store_fallback bucket_id timestamp
               (State (delete bucket_id (last_event_cache st)) (db st))
        else if decide (Event.timestamp cached > timestamp)
        then store_fallback bucket_id timestamp st
        else (st, inr (Some cached))
    | None => store_fallback bucket_id timestamp st
    end.
Proof.
  unfold _last_event, bind, cache_lookup, cache_pop, ret.
  destruct (last_event_cache st !! bucket_id) as [cached|]; [|reflexivity].
  destruct (decide (too_old now cached)); [reflexivity|].
  destruct (decide (Event.timestamp cached > timestamp)); reflexivity.
Qed.

Lemma store_fallback_cache (bucket_id : string) (timestamp : Z) (st : state S) :
  last_event_cache (store_fallback bucket_id timestamp st).1 = last_event_cache st.
Proof.
  rewrite store_fallback_run.
  destruct (db_get bucket_id 1 None (Some timestamp) (db st)) as [s' [e|events]];
    reflexivity.
Qed.

(** The cache after a lookup: as before, less the entry that was too old. *)
Lemma last_event_leaves_cache (now : Z) (bucket_id : string) (timestamp : Z) (st : state S) :
  last_event_cache (_last_event now bucket_id timestamp st).1 =
    match last_event_cache st !! bucket_id with
    | Some cached =>
        if decide (too_old now cached)
        then delete bucket_id (last_event_cache st)
        else last_event_cache st
    | None => last_event_cache st
    end.
Proof.
  rewrite last_event_run.
  destruct (last_event_cache st !! bucket_id) as [cached|];
    [|apply store_fallback_cache].
  destruct (decide (too_old now cached)); [apply store_fallback_cache|].
  destruct (decide (Event.timestamp cached > timestamp));
    [apply store_fallback_cache|reflexivity].
Qed.

(** C5. When the cached event of the bucket is not too old and its
    timestamp is strictly greater than the one asked for, the lookup does
    not answer with it: its outcome is that of the datastore read
    [get(limit=1, endtime=timestamp)], and the cache is left exactly as it
    was, the entry included. *)
Theorem last_event_newer_entry_bypassed
    (now : Z) (bucket_id : string) (timestamp : Z) (st : state S) (cached : Event.t) :
  last_event_cache st !! bucket_id = Some cached ->
  ¬ too_old now cached ->
  Event.timestamp cached > timestamp ->
  _last_event now bucket_id timestamp st =
    match db_get bucket_id 1 None (Some timestamp) (db st) with
    | (s', inl e) => (State (last_event_cache st) s', inl e)
    | (s', inr events) => (State (last_event_cache st) s', inr (head events))
    end
  ∧ last_event_cache (_last_event now bucket_id timestamp st).1 !! bucket_id
    = Some cached.
Proof.
  intros Hc Hfresh Hnewer.
  assert (Hrun : _last_event now bucket_id timestamp st
                 = store_fallback bucket_id timestamp st).
  { rewrite last_event_run, Hc.
    destruct (decide (too_old now cached)); [contradiction|].
    destruct (decide (Event.timestamp cached > timestamp)); [reflexivity|lia]. }
  split.
  - rewrite Hrun. apply store_fallback_run.
  - rewrite Hrun, store_fallback_cache. exact Hc.
Qed.

(** C6. When the cached event of the bucket ends more than 60 seconds
    before the clock reading, whatever timestamp is asked for, the entry is
    removed from the cache and the outcome is that of the datastore read. *)
Theorem last_event_old_entry_evicted
    (now : Z) (bucket_id : string) (timestamp : Z) (st : state S) (cached : Event.t) :
  last_event_cache st !! bucket_id = Some cached ->
  Event.timestamp cached + Event.duration cached < now - 60 * 1000000 ->
  _last_event now bucket_id timestamp st =
    match db_get bucket_id 1 None (Some timestamp) (db st) with
    | (s', inl e) => (State (delete bucket_id (last_event_cache st)) s', inl e)
    | (s', inr events) =>
        (State (delete bucket_id (last_event_cache st)) s', inr (head events))
    end
  ∧ last_event_cache (_last_event now bucket_id timestamp st).1 !! bucket_id = None.
Proof.
  intros Hc Hold.
  assert (Hrun : _last_event now bucket_id timestamp st
                 = store_fallback bucket_id timestamp
                     (State (delete bucket_id (last_event_cache st)) (db st))).
  { rewrite last_event_run, Hc.
    destruct (decide (too_old now cached)) as [|Hn]; [reflexivity|].
    exfalso. apply Hn. exact Hold. }
  split.
  - rewrite Hrun. exact (store_fallback_run bucket_id timestamp _).
  - rewrite Hrun, store_fallback_cache. apply lookup_delete_eq.
Qed.

(** No lookup adds or changes a cache entry. *)
Lemma last_event_cache_subseteq
    (now : Z) (bucket_id : string) (timestamp : Z) (st : state S) :
  last_event_cache (_last_event now bucket_id timestamp st).1 ⊆ last_event_cache st.
Proof.
  rewrite last_event_leaves_cache.
  destruct (last_event_cache st !! bucket_id) as [cached|]; [|reflexivity].
  destruct (decide (too_old now cached)); [apply delete_subseteq|reflexivity].
Qed.

(** The lookup without a cached event it can use: what it returns is what
    the datastore read returns. *)
Lemma last_event_fallback
    (now : Z) (bucket_id : string) (timestamp : Z) (st : state S) :
  (∀ cached, last_event_cache st !! bucket_id = Some cached ->
             too_old now cached ∨ Event.timestamp cached > timestamp) ->
  _last_event now bucket_id timestamp st =
    match db_get bucket_id 1 None (Some timestamp) (db st) with
    | (s', inl e) =>
        (State (cache_after_lookup now bucket_id (last_event_cache st)) s', inl e)
    | (s', inr events) =>
        (State (cache_after_lookup now bucket_id (last_event_cache st)) s',
         inr (head events))
    end.
Proof.
  intros Hcache. rewrite last_event_run. unfold cache_after_lookup.
  destruct (last_event_cache st !! bucket_id) as [cached|] eqn:Hc.
  - destruct (decide (too_old now cached)) as [Hold|Hfresh].
    + exact (store_fallback_run bucket_id timestamp _).
    + destruct (decide (Event.timestamp cached > timestamp)) as [Hnew|Hle].
      * apply store_fallback_run.
      * destruct (Hcache cached eq_refl); contradiction.
  - apply store_fallback_run.
Qed.

(** Where the cache is what the datastore would answer, it only saves the
    read. *)
Lemma last_event_cached_as_stored
    (now : Z) (bucket_id : string) (timestamp : Z) (st : state S)
    (cached : Event.t) (rest : list Event.t) :
  last_event_cache st !! bucket_id = Some cached ->
  ¬ too_old now cached ->
  Event.timestamp cached <= timestamp ->
  db_get bucket_id 1 None (Some timestamp) (db st) = (db st, inr (cached :: rest)) ->
  _last_event now bucket_id timestamp st = store_fallback bucket_id timestamp st.
Proof.
  intros Hc Hfresh Hle Hget.
  rewrite last_event_run, Hc.
  destruct (decide (too_old now cached)); [contradiction|].
  destruct (decide (Event.timestamp cached > timestamp)); [lia|].
  rewrite store_fallback_run, Hget.
  destruct st; reflexivity.
Qed.

End Lookup.

(** ** The comparison of data *)

Lemma py_eq_refl (x : value) : py_eq x x = true.
Proof.
  destruct x as [|b|n|str]; simpl; try reflexivity;
    apply bool_decide_eq_true; reflexivity.
Qed.

Lemma data_eq_refl (d : gmap string value) : data_eq d d = true.
Proof.
  unfold data_eq. apply bool_decide_eq_true. intros key.
  destruct (d !! key) as [x|]; simpl; [apply py_eq_refl|exact I].
Qed.

(** [{"n": 1} == {"n": True}] in Python. *)
Example data_eq_int_bool :
  data_eq {[ "n"%string := VInt 1 ]} {[ "n"%string := VBool true ]} = true.
Proof. vm_compute. reflexivity. Qed.

(** ** The handler *)

Section Handler.

Context {S : Type} `{Datastore S}.
Context {Pulse : Type}.
Variable heartbeat_merge : Event.t -> Event.t -> Pulse -> option Event.t.

Lemma insert_new_run (bucket_id : string) (hb : Event.t) (st : state S) :
  insert_new bucket_id hb st =
    match db_insert bucket_id hb (db st) with
    | (s', inl e) => (State (last_event_cache st) s', inl e)
    | (s', inr _) => (State (<[bucket_id := hb]> (last_event_cache st)) s', inr hb)
    end.
Proof.
  unfold insert_new, bind, call, cache_set, ret.
  destruct (db_insert bucket_id hb (db st)) as [s' [e|stored]]; reflexivity.
Qed.

Lemma replace_last_run (bucket_id : string) (last merged : Event.t) (st : state S) :
  replace_last bucket_id last merged st =
    match db_replace bucket_id (Event.id last) merged (db st) with
    | (s', inl e) => (State (last_event_cache st) s', inl e)
    | (s', inr _) =>
        (State (<[bucket_id := merged]> (last_event_cache st)) s', inr merged)
    end.
Proof.
  unfold replace_last, bind, call, cache_set, ret.
  destruct (db_replace bucket_id (Event.id last) merged (db st))
    as [s' [e|returned]]; reflexivity.
Qed.

Lemma heartbeat_body_run (now : Z) (bucket_id : string) (hb : Event.t)
    (pulsetime : Pulse) (st : state S) :
  heartbeat_body heartbeat_merge now bucket_id hb pulsetime st =
    match _last_event now bucket_id (Event.timestamp hb) st with
    | (st2, inl e) => (st2, inl e)
    | (st2, inr (Some last)) =>
        if data_eq (Event.data last) (Event.data hb) then
          match heartbeat_merge last hb pulsetime with
          | Some merged => replace_last bucket_id last merged st2
          | None => insert_new bucket_id hb st2
          end
        else insert_new bucket_id hb st2
    | (st2, inr None) => insert_new bucket_id hb st2
    end.
Proof.
  unfold heartbeat_body, bind.
  destruct (_last_event now bucket_id (Event.timestamp hb) st)
    as [st2 [e|[last|]]]; try reflexivity.
  destruct (data_eq (Event.data last) (Event.data hb)); [|reflexivity].
  destruct (heartbeat_merge last hb pulsetime); reflexivity.
Qed.

(** The decorator, when the bucket is listed. *)
Lemma heartbeat_checked (now : Z) (bucket_id : string) (hb : Event.t)
    (pulsetime : Pulse) (st : state S) (s1 : S) (bs : gset string) :
  db_buckets (db st) = (s1, inr bs) ->
  bucket_id ∈ bs ->
  heartbeat heartbeat_merge now bucket_id hb pulsetime st =
    heartbeat_body heartbeat_merge now bucket_id hb pulsetime (State (last_event_cache st) s1).
Proof.
  intros Hb Hin.
  unfold heartbeat, check_bucket_exists, bind, call.
  rewrite Hb. destruct (decide (bucket_id ∈ bs)); [reflexivity|contradiction].
Qed.

(** The three branches that do not merge end in lines 191-193. *)
Lemma heartbeat_insert_path (now : Z) (bucket_id : string) (hb : Event.t)
    (pulsetime : Pulse) (st st2 : state S) (s1 : S) (bs : gset string)
    (last : option Event.t) :
  db_buckets (db st) = (s1, inr bs) ->
  bucket_id ∈ bs ->
  _last_event now bucket_id (Event.timestamp hb) (State (last_event_cache st) s1)
    = (st2, inr last) ->
  nothing_to_merge heartbeat_merge last hb pulsetime ->
  heartbeat heartbeat_merge now bucket_id hb pulsetime st = insert_new bucket_id hb st2.
Proof.
  intros Hb Hin Hlast Hno.
  rewrite (heartbeat_checked _ _ _ _ _ _ _ Hb Hin), heartbeat_body_run, Hlast.
  destruct last as [last|]; [|reflexivity].
  destruct (data_eq (Event.data last) (Event.data hb)) eqn:Hdata; [|reflexivity].
  destruct Hno as [Hne|Hnone]; [congruence|].
  rewrite Hnone. reflexivity.
Qed.

(** The same, down to the call of [db_insert] and the cache. *)
Lemma heartbeat_insert_outcome
    (now : Z) (bucket_id : string) (hb : Event.t) (pulsetime : Pulse)
    (st st2 : state S) (s1 : S) (bs : gset string) (last : option Event.t) :
  db_buckets (db st) = (s1, inr bs) ->
  bucket_id ∈ bs ->
  _last_event now bucket_id (Event.timestamp hb) (State (last_event_cache st) s1)
    = (st2, inr last) ->
  nothing_to_merge heartbeat_merge last hb pulsetime ->
  heartbeat heartbeat_merge now bucket_id hb pulsetime st =
    match db_insert bucket_id hb (db st2) with
    | (s3, inl e) => (State (last_event_cache st2) s3, inl e)
    | (s3, inr stored) =>
        (State (<[bucket_id := hb]> (last_event_cache st2)) s3, inr hb)
    end.
Proof.
  intros Hb Hin Hlast Hno.
  rewrite (heartbeat_insert_path _ _ _ _ _ _ _ _ _ Hb Hin Hlast Hno).
  apply insert_new_run.
Qed.

(** The branch that merges, down to the call of [db_replace] and the
    cache. *)
Lemma heartbeat_replace_outcome
    (now : Z) (bucket_id : string) (hb : Event.t) (pulsetime : Pulse)
    (st st2 : state S) (s1 : S) (bs : gset string) (last merged : Event.t) :
  db_buckets (db st) = (s1, inr bs) ->
  bucket_id ∈ bs ->
  _last_event now bucket_id (Event.timestamp hb) (State (last_event_cache st) s1)
    = (st2, inr (Some last)) ->
  data_eq (Event.data last) (Event.data hb) = true ->
  heartbeat_merge last hb pulsetime = Some merged ->
  heartbeat heartbeat_merge now bucket_id hb pulsetime st =
    match db_replace bucket_id (Event.id last) merged (db st2) with
    | (s3, inl e) => (State (last_event_cache st2) s3, inl e)
    | (s3, inr returned) =>
        (State (<[bucket_id := merged]> (last_event_cache st2)) s3, inr merged)
    end.
Proof.
  intros Hb Hin Hlast Hdata Hm.
  rewrite (heartbeat_checked _ _ _ _ _ _ _ Hb Hin), heartbeat_body_run, Hlast.
  rewrite Hdata, Hm. apply replace_last_run.
Qed.

(** C8. When the event found has data that differ from the heartbeat's
    under Python's [==], whatever the timestamps and the pulse window, the
    handler calls [db_insert] with the heartbeat and never [db_replace];
    the event it returns is the heartbeat, whose duration is zero when it
    was submitted with duration zero. *)
Theorem heartbeat_differing_data_inserts
    (now : Z) (bucket_id : string) (hb : Event.t) (pulsetime : Pulse)
    (st st2 : state S) (s1 : S) (bs : gset string) (last : Event.t) :
  db_buckets (db st) = (s1, inr bs) ->
  bucket_id ∈ bs ->
  _last_event now bucket_id (Event.timestamp hb) (State (last_event_cache st) s1)
    = (st2, inr (Some last)) ->
  data_eq (Event.data last) (Event.data hb) = false ->
  Event.duration hb = 0 ->
  heartbeat heartbeat_merge now bucket_id hb pulsetime st =
    match db_insert bucket_id hb (db st2) with
    | (s3, inl e) => (State (last_event_cache st2) s3, inl e)
    | (s3, inr stored) =>
        (State (<[bucket_id := hb]> (last_event_cache st2)) s3, inr hb)
    end
  ∧ ∀ st' ev,
      heartbeat heartbeat_merge now bucket_id hb pulsetime st = (st', inr ev) ->
      ev = hb ∧ Event.duration ev = 0 ∧ inserted bucket_id hb st2 st'.
Proof.
  intros Hb Hin Hlast Hne Hzero.
  assert (Hrun : heartbeat heartbeat_merge now bucket_id hb pulsetime st
                 = insert_new bucket_id hb st2).
  { apply (heartbeat_insert_path _ _ _ _ _ _ _ _ _ Hb Hin Hlast).
    left. exact Hne. }
  rewrite Hrun, insert_new_run.
  split; [reflexivity|].
  intros st' ev.
  destruct (db_insert bucket_id hb (db st2)) as [s3 [e|stored]] eqn:Hins;
    intros Heq; [discriminate|].
  injection Heq as <- <-.
  split; [reflexivity|]. split; [exact Hzero|].
  exists s3, stored. split; [exact Hins|reflexivity].
Qed.

(** C10. When the lookup reaches the datastore (there is no cached event
    for the bucket, or it is too old, or it is newer than the heartbeat) and
    the datastore has no event at or before the heartbeat's timestamp, so
    that its answer is the empty list, the lookup returns [None] and raises
    nothing, and the handler goes on to [db_insert]. *)
Theorem heartbeat_empty_bucket_inserts
    (now : Z) (bucket_id : string) (hb : Event.t) (pulsetime : Pulse)
    (st : state S) (s1 s2 : S) (bs : gset string) :
  db_buckets (db st) = (s1, inr bs) ->
  bucket_id ∈ bs ->
  (∀ cached, last_event_cache st !! bucket_id = Some cached ->
             too_old now cached ∨ Event.timestamp cached > Event.timestamp hb) ->
  db_get bucket_id 1 None (Some (Event.timestamp hb)) s1 = (s2, inr []) ->
  let cache2 := cache_after_lookup now bucket_id (last_event_cache st) in
  _last_event now bucket_id (Event.timestamp hb) (State (last_event_cache st) s1)
    = (State cache2 s2, inr None)
  ∧ heartbeat heartbeat_merge now bucket_id hb pulsetime st =
      match db_insert bucket_id hb s2 with
      | (s3, inl e) => (State cache2 s3, inl e)
      | (s3, inr stored) => (State (<[bucket_id := hb]> cache2) s3, inr hb)
      end.
Proof.
  intros Hb Hin Hcache Hget cache2.
  assert (Hlast : _last_event now bucket_id (Event.timestamp hb)
                    (State (last_event_cache st) s1) = (State cache2 s2, inr None)).
  { rewrite last_event_run. subst cache2. unfold cache_after_lookup. simpl.
    destruct (last_event_cache st !! bucket_id) as [cached|] eqn:Hc.
    - destruct (decide (too_old now cached)).
      + rewrite store_fallback_run. simpl. rewrite Hget. reflexivity.
      + destruct (decide (Event.timestamp cached > Event.timestamp hb)).
        * rewrite store_fallback_run. simpl. rewrite Hget. reflexivity.
        * destruct (Hcache cached eq_refl); contradiction.
    - rewrite store_fallback_run. simpl. rewrite Hget. reflexivity. }
  split; [exact Hlast|].
  rewrite (heartbeat_insert_path _ _ _ _ _ _ _ _ _ Hb Hin Hlast I).
  apply insert_new_run.
Qed.

(** C9. After a call that returns, the cache entry of the bucket is the
    event the call returned: the merged event when the call went through
    [db_replace], which it does when the data of the event found are [==]
    to the heartbeat's and the merge function merges; the heartbeat it was
    given when it went through [db_insert].  Nothing is asked of the entry
    that was there before, which may be newer than the heartbeat. *)
Theorem heartbeat_caches_what_it_returns
    (now : Z) (bucket_id : string) (hb : Event.t) (pulsetime : Pulse)
    (st st' : state S) (ev : Event.t) :
  heartbeat heartbeat_merge now bucket_id hb pulsetime st = (st', inr ev) ->
  last_event_cache st' !! bucket_id = Some ev
  ∧ ∃ s1 bs st2 last,
      db_buckets (db st) = (s1, inr bs)
      ∧ _last_event now bucket_id (Event.timestamp hb)
          (State (last_event_cache st) s1) = (st2, inr last)
      ∧ ((∃ l, last = Some l
               ∧ data_eq (Event.data l) (Event.data hb) = true
               ∧ heartbeat_merge l hb pulsetime = Some ev
               ∧ replaced bucket_id l ev st2 st')
         ∨ (nothing_to_merge heartbeat_merge last hb pulsetime
            ∧ ev = hb
            ∧ inserted bucket_id hb st2 st')).
Proof.
  intros Hrun.
  destruct (db_buckets (db st)) as [s1 [e|bs]] eqn:Hb.
  { unfold heartbeat, check_bucket_exists, bind, call in Hrun.
    rewrite Hb in Hrun. discriminate. }
  destruct (decide (bucket_id ∈ bs)) as [Hin|Hout].
  2:{ unfold heartbeat, check_bucket_exists, bind, call in Hrun.
      rewrite Hb in Hrun. destruct (decide (bucket_id ∈ bs)); [contradiction|].
      discriminate. }
  rewrite (heartbeat_checked _ _ _ _ _ _ _ Hb Hin), heartbeat_body_run in Hrun.
  destruct (_last_event now bucket_id (Event.timestamp hb)
              (State (last_event_cache st) s1)) as [st2 [e|last]] eqn:Hlast;
    [discriminate|].
  assert (Hins : ∀ last', insert_new bucket_id hb st2 = (st', inr ev) ->
            nothing_to_merge heartbeat_merge last' hb pulsetime ->
            last_event_cache st' !! bucket_id = Some ev
            ∧ nothing_to_merge heartbeat_merge last' hb pulsetime
            ∧ ev = hb ∧ inserted bucket_id hb st2 st').
  { intros last' Hi Hno. rewrite insert_new_run in Hi.
    destruct (db_insert bucket_id hb (db st2)) as [s3 [e|stored]] eqn:Hdb;
      [discriminate|].
    injection Hi as <- <-. simpl.
    split; [apply lookup_insert_eq|]. split; [exact Hno|].
    split; [reflexivity|]. exists s3, stored. split; [exact Hdb|reflexivity]. }
  destruct last as [l|].
  - destruct (data_eq (Event.data l) (Event.data hb)) eqn:Hdata.
    + destruct (heartbeat_merge l hb pulsetime) as [merged|] eqn:Hm.
      * rewrite replace_last_run in Hrun.
        destruct (db_replace bucket_id (Event.id l) merged (db st2))
          as [s3 [e|returned]] eqn:Hdb; [discriminate|].
        injection Hrun as <- <-. simpl.
        split; [apply lookup_insert_eq|].
        exists s1, bs, st2, (Some l). split; [first [reflexivity|exact Hb]|].
        split; [first [reflexivity|exact Hlast]|].
        left. exists l. split; [reflexivity|].
        split; [first [reflexivity|exact Hdata]|].
        split; [exact Hm|]. exists s3, returned. split; [exact Hdb|reflexivity].
      * destruct (Hins (Some l) Hrun) as (Hc & Hno & He & Hi);
          [right; exact Hm|].
        split; [exact Hc|].
        exists s1, bs, st2, (Some l). split; [first [reflexivity|exact Hb]|].
        split; [first [reflexivity|exact Hlast]|].
        right. auto.
    + destruct (Hins (Some l) Hrun) as (Hc & Hno & He & Hi);
        [left; first [reflexivity|exact Hdata]|].
      split; [exact Hc|].
      exists s1, bs, st2, (Some l). split; [first [reflexivity|exact Hb]|].
      split; [first [reflexivity|exact Hlast]|].
      right. auto.
  - destruct (Hins None Hrun I) as (Hc & Hno & He & Hi).
    split; [exact Hc|].
    exists s1, bs, st2, None. split; [first [reflexivity|exact Hb]|].
    split; [first [reflexivity|exact Hlast]|].
    right. auto.
Qed.

End Handler.

(** ** Failures *)

Section Failures.

Context {S : Type} `{Datastore S}.
Context {Pulse : Type}.
Variable heartbeat_merge : Event.t -> Event.t -> Pulse -> option Event.t.

(** An exception out of the lookup is one that [db_get] raised. *)
Lemma last_event_raises (now : Z) (bucket_id : string) (timestamp : Z)
    (st st2 : state S) (e : exn) :
  _last_event now bucket_id timestamp st = (st2, inl e) ->
  ∃ s s', db_get bucket_id 1 None (Some timestamp) s = (s', inl e).
Proof.
  rewrite last_event_run.
  assert (Hfb : ∀ st0, store_fallback bucket_id timestamp st0 = (st2, inl e) ->
            ∃ s s', db_get bucket_id 1 None (Some timestamp) s = (s', inl e)).
  { intros st0. rewrite store_fallback_run.
    destruct (db_get bucket_id 1 None (Some timestamp) (db st0))
      as [s' [e'|events]] eqn:Hget; intros Heq; [|discriminate].
    injection Heq as _ <-. exists (db st0), s'. exact Hget. }
  destruct (last_event_cache st !! bucket_id) as [cached|]; [|apply Hfb].
  destruct (decide (too_old now cached)); [apply Hfb|].
  destruct (decide (Event.timestamp cached > timestamp)); [apply Hfb|].
  discriminate.
Qed.

Lemma last_event_leaves (now : Z) (bucket_id : string) (timestamp : Z)
    (st st2 : state S) (r : exn + option Event.t) :
  _last_event now bucket_id timestamp st = (st2, r) ->
  last_event_cache st2 = cache_after_lookup now bucket_id (last_event_cache st).
Proof.
  intros Hrun. pose proof (last_event_leaves_cache now bucket_id timestamp st) as Hc.
  rewrite Hrun in Hc. exact Hc.
Qed.

(** C4, as the code has it.  A datastore call that raises makes the
    heartbeat call raise that same exception, and the call then has set no
    cache entry:
    - when [db.buckets()] raises, the cache is the one the call found;
    - when the read [get(limit=1, endtime=...)] raises, the cache is the
      one the call found, less the entry of the bucket if the lookup found
      it too old, which it dropped before the read;
    - when [replace] or [insert] raises, the cache is the one the lookup
      left, again without any entry set.
    The entry of the bucket is set exactly when [replace] or [insert] has
    returned, to the event the call then returns. *)
Theorem heartbeat_failure_sets_no_entry
    (now : Z) (bucket_id : string) (hb : Event.t) (pulsetime : Pulse)
    (st : state S) :
  (∀ s1 e,
      db_buckets (db st) = (s1, inl e) ->
      heartbeat heartbeat_merge now bucket_id hb pulsetime st
      = (State (last_event_cache st) s1, inl e))
  ∧ ∀ s1 bs,
      db_buckets (db st) = (s1, inr bs) ->
      bucket_id ∈ bs ->
      let cache2 := cache_after_lookup now bucket_id (last_event_cache st) in
      (∀ s2 e,
          (∀ cached, last_event_cache st !! bucket_id = Some cached ->
                     too_old now cached
                     ∨ Event.timestamp cached > Event.timestamp hb) ->
          db_get bucket_id 1 None (Some (Event.timestamp hb)) s1 = (s2, inl e) ->
          heartbeat heartbeat_merge now bucket_id hb pulsetime st
          = (State cache2 s2, inl e))
      ∧ ∀ st2 last,
          _last_event now bucket_id (Event.timestamp hb)
            (State (last_event_cache st) s1) = (st2, inr last) ->
          last_event_cache st2 = cache2
          ∧ (∀ l merged s3 e,
                last = Some l ->
                data_eq (Event.data l) (Event.data hb) = true ->
                heartbeat_merge l hb pulsetime = Some merged ->
                db_replace bucket_id (Event.id l) merged (db st2) = (s3, inl e) ->
                heartbeat heartbeat_merge now bucket_id hb pulsetime st
                = (State cache2 s3, inl e))
          ∧ (∀ l merged s3 returned,
                last = Some l ->
                data_eq (Event.data l) (Event.data hb) = true ->
                heartbeat_merge l hb pulsetime = Some merged ->
                db_replace bucket_id (Event.id l) merged (db st2)
                = (s3, inr returned) ->
                heartbeat heartbeat_merge now bucket_id hb pulsetime st
                = (State (<[bucket_id := merged]> cache2) s3, inr merged))
          ∧ (∀ s3 e,
                nothing_to_merge heartbeat_merge last hb pulsetime ->
                db_insert bucket_id hb (db st2) = (s3, inl e) ->
                heartbeat heartbeat_merge now bucket_id hb pulsetime st
                = (State cache2 s3, inl e))
          ∧ (∀ s3 stored,
                nothing_to_merge heartbeat_merge last hb pulsetime ->
                db_insert bucket_id hb (db st2) = (s3, inr stored) ->
                heartbeat heartbeat_merge now bucket_id hb pulsetime st
                = (State (<[bucket_id := hb]> cache2) s3, inr hb)).
Proof.
  split.
  { intros s1 e Hb. unfold heartbeat, check_bucket_exists, bind, call.
    rewrite Hb. reflexivity. }
  intros s1 bs Hb Hin cache2. split.
  { intros s2 e Hcache Hget.
    rewrite (heartbeat_checked _ _ _ _ _ _ _ _ Hb Hin), heartbeat_body_run.
    rewrite (last_event_fallback now bucket_id (Event.timestamp hb)
               (State (last_event_cache st) s1) Hcache).
    simpl. rewrite Hget. reflexivity. }
  intros st2 last Hlast.
  pose proof (last_event_leaves _ _ _ _ _ _ Hlast) as Hcache. simpl in Hcache.
  fold cache2 in Hcache.
  split; [exact Hcache|].
  split; [|split; [|split]].
  - intros l merged s3 e -> Hdata Hm Hdb.
    rewrite (heartbeat_replace_outcome _ _ _ _ _ _ _ _ _ _ _ Hb Hin Hlast Hdata Hm).
    rewrite Hdb, Hcache. reflexivity.
  - intros l merged s3 returned -> Hdata Hm Hdb.
    rewrite (heartbeat_replace_outcome _ _ _ _ _ _ _ _ _ _ _ Hb Hin Hlast Hdata Hm).
    rewrite Hdb, Hcache. reflexivity.
  - intros s3 e Hno Hdb.
    rewrite (heartbeat_insert_outcome _ _ _ _ _ _ _ _ _ _ Hb Hin Hlast Hno).
    rewrite Hdb, Hcache. reflexivity.
  - intros s3 stored Hno Hdb.
    rewrite (heartbeat_insert_outcome _ _ _ _ _ _ _ _ _ _ Hb Hin Hlast Hno).
    rewrite Hdb, Hcache. reflexivity.
Qed.

End Failures.

(** ** The merge function and the handler that calls it *)

Section Merge.

Context {S : Type} `{Datastore S}.

(** C3.  For an event found and a heartbeat whose data are [==], with
    [heartbeat_merge] as the specification defines it: the merge succeeds
    exactly when the heartbeat's timestamp is at most the end of the last
    event plus the pulse window.  Then the handler hands [db_replace] the
    identity of the last event and the merged event, which has that
    identity, the last event's timestamp and data, and the duration
    [max(last end, heartbeat timestamp) - last timestamp], and caches and
    returns it.  Otherwise the merge is [None] and the handler hands the
    heartbeat to [db_insert], and caches and returns the heartbeat. *)
Theorem heartbeat_merge_window
    (now : Z) (bucket_id : string) (hb : Event.t) (pulsetime : Z)
    (st st2 : state S) (s1 : S) (bs : gset string) (last : Event.t) :
  db_buckets (db st) = (s1, inr bs) ->
  bucket_id ∈ bs ->
  _last_event now bucket_id (Event.timestamp hb) (State (last_event_cache st) s1)
    = (st2, inr (Some last)) ->
  data_eq (Event.data last) (Event.data hb) = true ->
  let last_end := Event.timestamp last + Event.duration last in
  let merged :=
    Event.mk (Event.id last) (Event.timestamp last)
             (Z.max last_end (Event.timestamp hb) - Event.timestamp last)
             (Event.data last) in
  (is_Some (transforms.heartbeat_merge last hb pulsetime)
   ↔ Event.timestamp hb <= last_end + pulsetime)
  ∧ (Event.timestamp hb <= last_end + pulsetime ->
     transforms.heartbeat_merge last hb pulsetime = Some merged
     ∧ heartbeat transforms.heartbeat_merge now bucket_id hb pulsetime st =
         match db_replace bucket_id (Event.id last) merged (db st2) with
         | (s3, inl e) => (State (last_event_cache st2) s3, inl e)
         | (s3, inr returned) =>
             (State (<[bucket_id := merged]> (last_event_cache st2)) s3,
              inr merged)
         end)
  ∧ (¬ Event.timestamp hb <= last_end + pulsetime ->
     transforms.heartbeat_merge last hb pulsetime = None
     ∧ heartbeat transforms.heartbeat_merge now bucket_id hb pulsetime st =
         match db_insert bucket_id hb (db st2) with
         | (s3, inl e) => (State (last_event_cache st2) s3, inl e)
         | (s3, inr stored) =>
             (State (<[bucket_id := hb]> (last_event_cache st2)) s3, inr hb)
         end).
Proof.
  intros Hb Hin Hlast Hdata last_end merged.
  assert (Hyes : Event.timestamp hb <= last_end + pulsetime ->
                 transforms.heartbeat_merge last hb pulsetime = Some merged).
  { intros Hle. unfold transforms.heartbeat_merge. fold last_end.
    destruct (decide (Event.timestamp hb <= last_end + pulsetime));
      [reflexivity|contradiction]. }
  assert (Hno : ¬ Event.timestamp hb <= last_end + pulsetime ->
                transforms.heartbeat_merge last hb pulsetime = None).
  { intros Hgt. unfold transforms.heartbeat_merge. fold last_end.
    destruct (decide (Event.timestamp hb <= last_end + pulsetime));
      [contradiction|reflexivity]. }
  split; [|split].
  - split.
    + intros [m Hm].
      destruct (decide (Event.timestamp hb <= last_end + pulsetime))
        as [Hle|Hgt]; [exact Hle|].
      rewrite (Hno Hgt) in Hm. discriminate Hm.
    + intros Hle. rewrite (Hyes Hle). eexists. reflexivity.
  - intros Hle. split; [exact (Hyes Hle)|].
    exact (heartbeat_replace_outcome transforms.heartbeat_merge _ _ _ _ _ _ _ _
             _ _ Hb Hin Hlast Hdata (Hyes Hle)).
  - intros Hgt. split; [exact (Hno Hgt)|].
    apply (heartbeat_insert_outcome transforms.heartbeat_merge _ _ _ _ _ _ _ _
             _ Hb Hin Hlast).
    right. exact (Hno Hgt).
Qed.

End Merge.

(** ** Reading without the cache *)

Section Uncached.

Context {S : Type} `{Datastore S}.
Context {Pulse : Type}.
Variable heartbeat_merge : Event.t -> Event.t -> Pulse -> option Event.t.

(** The handler run on a cache without the entry of the bucket. *)
Lemma heartbeat_entry_dropped (now : Z) (bucket_id : string) (hb : Event.t)
    (pulsetime : Pulse) (cache cache' : gmap string Event.t) (s : S) :
  let dropped :=
    heartbeat heartbeat_merge now bucket_id hb pulsetime
      (State (delete bucket_id cache) s) in
  let direct :=
    heartbeat_store_only heartbeat_merge now bucket_id hb pulsetime
      (State cache' s) in
  dropped.2 = direct.2 ∧ db dropped.1 = db direct.1.
Proof.
  unfold heartbeat, heartbeat_store_only, check_bucket_exists, bind, call, raise.
  simpl.
  destruct (db_buckets s) as [s1 [err|bs]]; [split; reflexivity|].
  destruct (decide (bucket_id ∈ bs)) as [Hin|Hout]; [|split; reflexivity].
  rewrite heartbeat_body_run, last_event_run. simpl.
  rewrite lookup_delete_eq, !store_fallback_run. simpl.
  destruct (db_get bucket_id 1 None (Some (Event.timestamp hb)) s1)
    as [s2 [err|events]]; [split; reflexivity|].
  assert (Hins :
    (insert_new bucket_id hb (State (delete bucket_id cache) s2)).2
      = (let (st', r) := call (db_insert bucket_id hb) (State cache' s2) in
         match r with
         | inl e => (st', inl e)
         | inr _ => ret hb st'
         end).2
    ∧ db (insert_new bucket_id hb (State (delete bucket_id cache) s2)).1
      = db (let (st', r) := call (db_insert bucket_id hb) (State cache' s2) in
            match r with
            | inl e => (st', inl e)
            | inr _ => ret hb st'
            end).1).
  { rewrite insert_new_run. unfold call, ret. simpl.
    destruct (db_insert bucket_id hb s2) as [s3 [err|stored]]; split; reflexivity. }
  destruct (head events) as [last|]; [|exact Hins].
  destruct (data_eq (Event.data last) (Event.data hb)); [|exact Hins].
  destruct (heartbeat_merge last hb pulsetime) as [merged|]; [|exact Hins].
  rewrite replace_last_run. unfold call, ret. simpl.
  destruct (db_replace bucket_id (Event.id last) merged s2)
    as [s3 [err|returned]]; split; reflexivity.
Qed.

(** Reading the datastore at every lookup and dropping the entry of the
    bucket before every call are the same thing to the caller. *)
Lemma serve_entry_dropped (bucket_id : string)
    (requests : list (Z * Event.t * Pulse)) :
  ∀ st st' : state S,
    db st = db st' ->
    serve (fun now bucket_id hb pulsetime st =>
             heartbeat heartbeat_merge now bucket_id hb pulsetime
               (State (delete bucket_id (last_event_cache st)) (db st)))
          bucket_id requests st
    = serve (heartbeat_store_only heartbeat_merge) bucket_id requests st'.
Proof.
  induction requests as [|[[now hb] pulsetime] rest IH]; intros st st' Hdb;
    [reflexivity|].
  simpl.
  destruct (heartbeat_entry_dropped now bucket_id hb pulsetime
              (last_event_cache st) (last_event_cache st') (db st))
    as [Hr Hs].
  destruct st' as [c' s']. simpl in Hdb. subst s'. simpl in Hr, Hs.
  destruct (heartbeat heartbeat_merge now bucket_id hb pulsetime
              (State (delete bucket_id (last_event_cache st)) (db st)))
    as [st1 r1].
  destruct (heartbeat_store_only heartbeat_merge now bucket_id hb pulsetime
              (State c' (db st))) as [st1' r1'].
  simpl in Hr, Hs. subst r1'. f_equal. apply IH. exact Hs.
Qed.

End Uncached.

(** ** The datastore in memory answers with the most recent event *)

Lemma place_elem_of (e x : Event.t) (events : list Event.t) :
  x ∈ MemoryStore.place e events ↔ x = e ∨ x ∈ events.
Proof.
  induction events as [|y rest IH]; simpl.
  - rewrite list_elem_of_singleton. split; [auto|].
    intros [Hx|Hx]; [exact Hx|inversion Hx].
  - destruct (decide (Event.timestamp y <= Event.timestamp e)).
    + rewrite elem_of_cons. tauto.
    + rewrite !elem_of_cons, IH. tauto.
Qed.

Lemma place_recent_first (e : Event.t) (events : list Event.t) :
  MemoryStore.recent_first events ->
  MemoryStore.recent_first (MemoryStore.place e events).
Proof.
  unfold MemoryStore.recent_first.
  induction events as [|y rest IH]; simpl; intros Hs.
  - repeat constructor.
  - apply StronglySorted_cons in Hs as [Hy Hrest].
    destruct (decide (Event.timestamp y <= Event.timestamp e)) as [Hle|Hgt].
    + apply StronglySorted_cons. split.
      * constructor; [exact Hle|].
        eapply Forall_impl; [exact Hy|]. simpl. intros z Hz. lia.
      * apply StronglySorted_cons. split; assumption.
    + apply StronglySorted_cons. split; [|apply IH; exact Hrest].
      apply Forall_forall. intros z Hz.
      apply place_elem_of in Hz as [->|Hz]; [lia|].
      rewrite Forall_forall in Hy. apply Hy. exact Hz.
Qed.

(** What [get(limit=1, endtime=t)] answers on an ordered bucket: the event
    at or before [t] that no other such event is later than, or nothing when
    the bucket has no event at or before [t]. *)
Lemma get_latest_in_memory (events : list Event.t) (t : Z) :
  MemoryStore.recent_first events ->
  match head (MemoryStore.limited 1
                (List.filter (MemoryStore.in_range None (Some t)) events)) with
  | Some e =>
      e ∈ events
      ∧ Event.timestamp e <= t
      ∧ ∀ x, x ∈ events -> Event.timestamp x <= t ->
             Event.timestamp x <= Event.timestamp e
  | None => ∀ x, x ∈ events -> ¬ Event.timestamp x <= t
  end.
Proof.
  unfold MemoryStore.recent_first, MemoryStore.limited. simpl.
  induction events as [|y rest IH]; intros Hs.
  - simpl. intros x Hx. inversion Hx.
  - apply StronglySorted_cons in Hs as [Hy Hrest]. specialize (IH Hrest).
    simpl. unfold MemoryStore.in_range at 1. simpl.
    destruct (bool_decide (Event.timestamp y <= t)) eqn:Hb.
    + apply bool_decide_eq_true in Hb. simpl.
      split; [left|]. split; [exact Hb|].
      intros x Hx _. apply elem_of_cons in Hx as [->|Hx]; [lia|].
      rewrite Forall_forall in Hy. apply Hy. exact Hx.
    + apply bool_decide_eq_false in Hb.
      destruct (head (take (Z.to_nat 1)
                  (List.filter (MemoryStore.in_range None (Some t)) rest)))
        as [e|].
      * destruct IH as (He & Hle & Hmax).
        split; [right; exact He|]. split; [exact Hle|].
        intros x Hx Hxt. apply elem_of_cons in Hx as [->|Hx];
          [contradiction|]. apply Hmax; assumption.
      * intros x Hx. apply elem_of_cons in Hx as [->|Hx];
          [exact Hb|]. apply IH. exact Hx.
Qed.

(** ** The lookup through the datastore *)

Section Fallback.

Context {S : Type} `{Datastore S}.

(** C7. Whenever the lookup has no cached event it can use (none, or one
    that is too old, or one newer than the timestamp), it asks the datastore
    for [get(limit=1, endtime=timestamp)] and returns the first event of
    the answer, or [None] when the answer is empty; on the datastore in
    memory, whose buckets are ordered, that is the most recent event at or
    before the timestamp.  The read adds nothing to the cache: after any
    lookup the cache is included in the cache before it, and after a read
    it is the cache before it less the entry that was too old. *)
Theorem last_event_fallback_reads_without_caching
    (now : Z) (bucket_id : string) (timestamp : Z) (st : state S) :
  ((∀ cached, last_event_cache st !! bucket_id = Some cached ->
              too_old now cached ∨ Event.timestamp cached > timestamp) ->
   _last_event now bucket_id timestamp st =
     match db_get bucket_id 1 None (Some timestamp) (db st) with
     | (s', inl e) =>
         (State (cache_after_lookup now bucket_id (last_event_cache st)) s',
          inl e)
     | (s', inr events) =>
         (State (cache_after_lookup now bucket_id (last_event_cache st)) s',
          inr (head events))
     end)
  ∧ cache_after_lookup now bucket_id (last_event_cache st) ⊆ last_event_cache st
  ∧ last_event_cache (_last_event now bucket_id timestamp st).1
    ⊆ last_event_cache st
  ∧ ∀ (mst : state MemoryStore.t) (events : list Event.t),
      (∀ cached, last_event_cache mst !! bucket_id = Some cached ->
                 too_old now cached ∨ Event.timestamp cached > timestamp) ->
      MemoryStore.contents (db mst) !! bucket_id = Some events ->
      MemoryStore.recent_first events ->
      MemoryStore.faults (db mst) = [] ->
      ∃ answer,
        _last_event now bucket_id timestamp mst
        = (State (cache_after_lookup now bucket_id (last_event_cache mst))
             (db mst),
           inr answer)
        ∧ match answer with
          | Some e =>
              e ∈ events
              ∧ Event.timestamp e <= timestamp
              ∧ ∀ x, x ∈ events -> Event.timestamp x <= timestamp ->
                     Event.timestamp x <= Event.timestamp e
          | None => ∀ x, x ∈ events -> ¬ Event.timestamp x <= timestamp
          end.
Proof.
  split; [apply last_event_fallback|].
  split.
  { unfold cache_after_lookup.
    destruct (last_event_cache st !! bucket_id) as [cached|]; [|reflexivity].
    destruct (decide (too_old now cached)); [apply delete_subseteq|reflexivity]. }
  split; [apply last_event_cache_subseteq|].
  intros mst events Hcache Hcontents Hsorted Hfaults.
  rewrite (last_event_fallback now bucket_id timestamp mst Hcache).
  assert (Hget : db_get bucket_id 1 None (Some timestamp) (db mst)
                 = (db mst,
                    inr (MemoryStore.limited 1
                           (List.filter
                              (MemoryStore.in_range None (Some timestamp))
                              events)))).
  { simpl. unfold MemoryStore.attempt. rewrite Hfaults.
    unfold MemoryStore.get, MemoryStore.in_bucket. rewrite Hcontents.
    reflexivity. }
  rewrite Hget. eexists. split; [reflexivity|].
  apply get_latest_in_memory. exact Hsorted.
Qed.

End Fallback.

(** * The properties at work on the datastore in memory *)

Import Samples.

Local Ltac run := vm_compute; reflexivity.

Local Ltac listed := refine (bool_decide_unpack _ _); vm_compute; exact I.

(** Scenario 7 of the specification: insert at 100 s, merge at 103 s into an
    event of 3 s, insert at 110 s, the gap of 7 s exceeding the window. *)
Example scenario_7 :
  serve (heartbeat transforms.heartbeat_merge) "b" scenario cold =
    [ inr (Event.mk None (sec 100) 0 (app "X"));
      inr (Event.mk None (sec 100) (sec 3) (app "X"));
      inr (Event.mk None (sec 110) 0 (app "X")) ].
Proof. run. Qed.


(** C2 fails on the code.  The three heartbeats of [out_of_order] are
    answered with a merge into the event cached by the second call when the
    cache is used, and with a new event when every lookup reads the
    datastore, or when the entry of the bucket is dropped before each
    call. *)
Theorem cache_changes_the_returned_events :
  serve (heartbeat transforms.heartbeat_merge) "b" out_of_order cold =
    [ inr (beat 100 (app "X"));
      inr (beat 90 (app "Y"));
      inr (Event.mk None (sec 90) (sec 20) (app "Y")) ]
  ∧ serve (heartbeat_store_only transforms.heartbeat_merge) "b" out_of_order cold =
    [ inr (beat 100 (app "X"));
      inr (beat 90 (app "Y"));
      inr (beat 110 (app "Y")) ]
  ∧ serve (fun now bucket_id hb pulsetime st =>
             heartbeat transforms.heartbeat_merge now bucket_id hb pulsetime
               (State (delete bucket_id (last_event_cache st)) (db st)))
          "b" out_of_order cold =
    [ inr (beat 100 (app "X"));
      inr (beat 90 (app "Y"));
      inr (beat 110 (app "Y")) ].
Proof. split; [run|]. split; run. Qed.

Lemma heartbeat_merge_window_witness :
  data_eq (Event.data stored_X) (Event.data (beat 105 (app "X"))) = true
  ∧ Event.timestamp (beat 105 (app "X"))
      <= Event.timestamp stored_X + Event.duration stored_X + sec 5
  ∧ heartbeat transforms.heartbeat_merge (sec 106) "b" (beat 105 (app "X"))
      (sec 5) (warm []) =
      match db_replace "b" (Some 0)
              (Event.mk (Some 0) (sec 100) (sec 5) (app "X")) (db (warm [])) with
      | (s3, inl e) => (State (last_event_cache (warm [])) s3, inl e)
      | (s3, inr returned) =>
          (State (<["b"%string := Event.mk (Some 0) (sec 100) (sec 5) (app "X")]>
                    (last_event_cache (warm []))) s3,
           inr (Event.mk (Some 0) (sec 100) (sec 5) (app "X")))
      end.
Proof.
  assert (Hdata : data_eq (Event.data stored_X)
                    (Event.data (beat 105 (app "X"))) = true) by run.
  assert (Hin : Event.timestamp (beat 105 (app "X"))
                <= Event.timestamp stored_X + Event.duration stored_X + sec 5)
    by (vm_compute; discriminate).
  assert (Hb : db_buckets (db (warm []))
               = (one_event [], inr (dom (MemoryStore.contents (one_event [])))))
    by reflexivity.
  assert (Hlisted : "b"%string ∈ dom (MemoryStore.contents (one_event [])))
    by listed.
  assert (Hlast : _last_event (sec 106) "b" (Event.timestamp (beat 105 (app "X")))
                    (State (last_event_cache (warm [])) (one_event []))
                  = (warm [], inr (Some stored_X))) by run.
  split; [exact Hdata|]. split; [exact Hin|].
  exact (proj2 (proj1 (proj2 (heartbeat_merge_window (sec 106) "b"
                                (beat 105 (app "X")) (sec 5) (warm []) (warm [])
                                (one_event [])
                                (dom (MemoryStore.contents (one_event [])))
                                stored_X Hb Hlisted Hlast Hdata)) Hin)).
Defined.

(** C4 fails as stated: the cached event is too old, the lookup drops it,
    the read that follows raises [StoreUnavailable], and the call ends with
    that exception and without the entry. *)
Lemma heartbeat_failure_after_eviction :
  last_event_cache (warm [false; true]) !! "b"%string = Some stored_X
  ∧ (heartbeat transforms.heartbeat_merge (sec 200) "b" (beat 199 (app "X")) (sec 5)
       (warm [false; true])).2
    = inl (StoreError "StoreUnavailable")
  ∧ last_event_cache
      (heartbeat transforms.heartbeat_merge (sec 200) "b" (beat 199 (app "X")) (sec 5)
         (warm [false; true])).1
      !! "b"%string
    = None.
Proof. split; [run|]. split; run. Qed.

Lemma heartbeat_failure_sets_no_entry_witness :
  (∀ cached, last_event_cache (warm [false; true]) !! "b"%string = Some cached ->
             too_old (sec 200) cached
             ∨ Event.timestamp cached > Event.timestamp (beat 199 (app "X")))
  ∧ db_get "b" 1 None (Some (Event.timestamp (beat 199 (app "X"))))
      (one_event [true])
    = (one_event [], inl (StoreError "StoreUnavailable"))
  ∧ heartbeat transforms.heartbeat_merge (sec 200) "b" (beat 199 (app "X"))
      (sec 5) (warm [false; true])
    = (State (cache_after_lookup (sec 200) "b"
                (last_event_cache (warm [false; true])))
         (one_event []),
       inl (StoreError "StoreUnavailable")).
Proof.
  assert (Hcache : ∀ cached,
            last_event_cache (warm [false; true]) !! "b"%string = Some cached ->
            too_old (sec 200) cached
            ∨ Event.timestamp cached > Event.timestamp (beat 199 (app "X"))).
  { intros cached Hc. left.
    assert (Hx : last_event_cache (warm [false; true]) !! "b"%string
                 = Some stored_X) by run.
    rewrite Hx in Hc. injection Hc as <-. unfold too_old. run. }
  assert (Hget : db_get "b" 1 None
                   (Some (Event.timestamp (beat 199 (app "X"))))
                   (one_event [true])
                 = (one_event [], inl (StoreError "StoreUnavailable"))) by run.
  assert (Hb : db_buckets (db (warm [false; true]))
               = (one_event [true],
                  inr (dom (MemoryStore.contents (one_event [true])))))
    by reflexivity.
  assert (Hlisted : "b"%string ∈ dom (MemoryStore.contents (one_event [true])))
    by listed.
  split; [exact Hcache|]. split; [exact Hget|].
  exact (proj1 (proj2 (heartbeat_failure_sets_no_entry
                         transforms.heartbeat_merge (sec 200) "b"
                         (beat 199 (app "X")) (sec 5) (warm [false; true]))
                  (one_event [true])
                  (dom (MemoryStore.contents (one_event [true]))) Hb Hlisted)
           (one_event []) (StoreError "StoreUnavailable") Hcache Hget).
Defined.

Lemma last_event_newer_entry_bypassed_witness :
  last_event_cache (warm []) !! "b"%string = Some stored_X
  ∧ ¬ too_old (sec 110) stored_X
  ∧ Event.timestamp stored_X > sec 50
  ∧ _last_event (sec 110) "b" (sec 50) (warm []) =
      match db_get "b" 1 None (Some (sec 50)) (db (warm [])) with
      | (s', inl e) => (State (last_event_cache (warm [])) s', inl e)
      | (s', inr events) =>
          (State (last_event_cache (warm [])) s', inr (head events))
      end
  ∧ last_event_cache (_last_event (sec 110) "b" (sec 50) (warm [])).1
      !! "b"%string
    = Some stored_X.
Proof.
  assert (Hc : last_event_cache (warm []) !! "b"%string = Some stored_X) by run.
  assert (Hfresh : ¬ too_old (sec 110) stored_X)
    by (unfold too_old; vm_compute; intros Hlt; discriminate Hlt).
  assert (Hnewer : Event.timestamp stored_X > sec 50) by run.
  split; [exact Hc|]. split; [exact Hfresh|]. split; [exact Hnewer|].
  exact (last_event_newer_entry_bypassed (sec 110) "b" (sec 50) (warm [])
           stored_X Hc Hfresh Hnewer).
Defined.

Lemma last_event_old_entry_evicted_witness :
  last_event_cache (warm []) !! "b"%string = Some stored_X
  ∧ Event.timestamp stored_X + Event.duration stored_X < sec 200 - 60 * 1000000
  ∧ _last_event (sec 200) "b" (sec 199) (warm []) =
      match db_get "b" 1 None (Some (sec 199)) (db (warm [])) with
      | (s', inl e) =>
          (State (delete "b"%string (last_event_cache (warm []))) s', inl e)
      | (s', inr events) =>
          (State (delete "b"%string (last_event_cache (warm []))) s',
           inr (head events))
      end
  ∧ last_event_cache (_last_event (sec 200) "b" (sec 199) (warm [])).1
      !! "b"%string
    = None.
Proof.
  assert (Hc : last_event_cache (warm []) !! "b"%string = Some stored_X) by run.
  assert (Hold : Event.timestamp stored_X + Event.duration stored_X
                 < sec 200 - 60 * 1000000) by run.
  split; [exact Hc|]. split; [exact Hold|].
  exact (last_event_old_entry_evicted (sec 200) "b" (sec 199) (warm [])
           stored_X Hc Hold).
Defined.

Lemma last_event_fallback_reads_without_caching_witness :
  (∀ cached, last_event_cache (warm []) !! "b"%string = Some cached ->
             too_old (sec 110) cached ∨ Event.timestamp cached > sec 50)
  ∧ _last_event (sec 110) "b" (sec 50) (warm []) =
      match db_get "b" 1 None (Some (sec 50)) (db (warm [])) with
      | (s', inl e) =>
          (State (cache_after_lookup (sec 110) "b" (last_event_cache (warm [])))
             s',
           inl e)
      | (s', inr events) =>
          (State (cache_after_lookup (sec 110) "b" (last_event_cache (warm [])))
             s',
           inr (head events))
      end.
Proof.
  assert (Hcache : ∀ cached,
            last_event_cache (warm []) !! "b"%string = Some cached ->
            too_old (sec 110) cached ∨ Event.timestamp cached > sec 50).
  { intros cached Hc. right.
    assert (Hx : last_event_cache (warm []) !! "b"%string = Some stored_X)
      by run.
    rewrite Hx in Hc. injection Hc as <-. run. }
  split; [exact Hcache|].
  exact (proj1 (last_event_fallback_reads_without_caching (sec 110) "b"
                  (sec 50) (warm [])) Hcache).
Defined.

Lemma heartbeat_differing_data_inserts_witness :
  data_eq (Event.data stored_X) (Event.data (beat 103 (app "Y"))) = false
  ∧ Event.duration (beat 103 (app "Y")) = 0
  ∧ heartbeat transforms.heartbeat_merge (sec 104) "b" (beat 103 (app "Y"))
      (sec 5) (warm []) =
      match db_insert "b" (beat 103 (app "Y")) (db (warm [])) with
      | (s3, inl e) => (State (last_event_cache (warm [])) s3, inl e)
      | (s3, inr stored) =>
          (State (<["b"%string := beat 103 (app "Y")]>
                    (last_event_cache (warm []))) s3,
           inr (beat 103 (app "Y")))
      end.
Proof.
  assert (Hne : data_eq (Event.data stored_X)
                  (Event.data (beat 103 (app "Y"))) = false) by run.
  assert (Hzero : Event.duration (beat 103 (app "Y")) = 0) by reflexivity.
  split; [exact Hne|]. split; [exact Hzero|].
  refine (proj1 (heartbeat_differing_data_inserts transforms.heartbeat_merge
                   (sec 104) "b" (beat 103 (app "Y")) (sec 5) (warm []) (warm [])
                   (one_event []) (dom (MemoryStore.contents (one_event [])))
                   stored_X _ _ _ Hne Hzero)).
  - reflexivity.
  - listed.
  - run.
Defined.

(** The heartbeat is 50 s older than the cached event, and replaces it. *)
Lemma heartbeat_caches_what_it_returns_witness :
  heartbeat transforms.heartbeat_merge (sec 110) "b" (beat 50 (app "Y")) (sec 5)
    (warm [])
    = (State {[ "b"%string := beat 50 (app "Y") ]} two_events,
       inr (beat 50 (app "Y")))
  ∧ last_event_cache (warm []) !! "b"%string = Some stored_X
  ∧ Event.timestamp (beat 50 (app "Y")) < Event.timestamp stored_X
  ∧ last_event_cache (State {[ "b"%string := beat 50 (app "Y") ]} two_events)
      !! "b"%string
    = Some (beat 50 (app "Y")).
Proof.
  assert (Hrun : heartbeat transforms.heartbeat_merge (sec 110) "b"
                   (beat 50 (app "Y")) (sec 5) (warm [])
                 = (State {[ "b"%string := beat 50 (app "Y") ]} two_events,
                    inr (beat 50 (app "Y")))) by run.
  split; [exact Hrun|]. split; [run|]. split; [run|].
  exact (proj1 (heartbeat_caches_what_it_returns transforms.heartbeat_merge
                  (sec 110) "b" (beat 50 (app "Y")) (sec 5) (warm []) _ _ Hrun)).
Defined.

Lemma heartbeat_empty_bucket_inserts_witness :
  db_get "b" 1 None (Some (Event.timestamp (beat 100 (app "X")))) empty_bucket
    = (empty_bucket, inr [])
  ∧ _last_event (sec 101) "b" (Event.timestamp (beat 100 (app "X")))
      (State (last_event_cache cold) empty_bucket)
    = (State (cache_after_lookup (sec 101) "b" (last_event_cache cold))
         empty_bucket,
       inr None)
  ∧ heartbeat transforms.heartbeat_merge (sec 101) "b" (beat 100 (app "X"))
      (sec 5) cold =
      match db_insert "b" (beat 100 (app "X")) empty_bucket with
      | (s3, inl e) =>
          (State (cache_after_lookup (sec 101) "b" (last_event_cache cold)) s3,
           inl e)
      | (s3, inr stored) =>
          (State (<["b"%string := beat 100 (app "X")]>
                    (cache_after_lookup (sec 101) "b" (last_event_cache cold)))
             s3,
           inr (beat 100 (app "X")))
      end.
Proof.
  assert (Hget : db_get "b" 1 None
                   (Some (Event.timestamp (beat 100 (app "X")))) empty_bucket
                 = (empty_bucket, inr [])) by run.
  split; [exact Hget|].
  refine (heartbeat_empty_bucket_inserts transforms.heartbeat_merge (sec 101)
            "b" (beat 100 (app "X")) (sec 5) cold empty_bucket empty_bucket
            (dom (MemoryStore.contents empty_bucket)) _ _ _ Hget).
  - reflexivity.
  - listed.
  - intros cached Hc. vm_compute in Hc. discriminate Hc.
Defined.

(** * Further properties of the endpoint *)

(** ** Answers of the lookup *)

Section LookupAnswers.

Context {S : Type} `{Datastore S}.

Lemma last_event_hit
    (now : Z) (bucket_id : string) (timestamp : Z) (st : state S) (cached : Event.t) :
  last_event_cache st !! bucket_id = Some cached ->
  ¬ too_old now cached ->
  Event.timestamp cached <= timestamp ->
  _last_event now bucket_id timestamp st = (st, inr (Some cached)).
Proof.
  intros Hc Hfresh Hle. rewrite last_event_run, Hc.
  destruct (decide (too_old now cached)); [contradiction|].
  destruct (decide (Event.timestamp cached > timestamp)); [lia|reflexivity].
Qed.

(** X1. A cached event that is not too old and not newer than the timestamp
    asked for is the answer, and the lookup touches neither the cache nor
    the datastore: the state after it is the state before it. *)
Theorem last_event_answers_from_cache
    (now : Z) (bucket_id : string) (timestamp : Z) (st : state S) (cached : Event.t) :
  last_event_cache st !! bucket_id = Some cached ->
  ¬ (Event.timestamp cached + Event.duration cached < now - 60 * 1000000) ->
  Event.timestamp cached <= timestamp ->
  _last_event now bucket_id timestamp st = (st, inr (Some cached))
  ∧ last_event_cache (_last_event now bucket_id timestamp st).1
    = last_event_cache st
  ∧ db (_last_event now bucket_id timestamp st).1 = db st.
Proof.
  intros Hc Hfresh Hle.
  rewrite (last_event_hit now bucket_id timestamp st cached Hc Hfresh Hle).
  auto.
Qed.

(** X2. Where an answer of the lookup comes from: either it is the cached
    event of the bucket, which is then not too old and not newer than the
    timestamp, and nothing has changed; or the cache had no such event and
    the answer is the head of what [get(limit=1, endtime=timestamp)]
    returned, the cache having lost at most the entry that was too old. *)
Theorem last_event_answer_origin
    (now : Z) (bucket_id : string) (timestamp : Z) (st st' : state S)
    (answer : option Event.t) :
  _last_event now bucket_id timestamp st = (st', inr answer) ->
  (∃ cached,
      last_event_cache st !! bucket_id = Some cached
      ∧ ¬ too_old now cached
      ∧ Event.timestamp cached <= timestamp
      ∧ answer = Some cached
      ∧ st' = st)
  ∨ (∃ s' events,
        db_get bucket_id 1 None (Some timestamp) (db st) = (s', inr events)
        ∧ answer = head events
        ∧ st' = State (cache_after_lookup now bucket_id (last_event_cache st)) s'
        ∧ ∀ cached, last_event_cache st !! bucket_id = Some cached ->
                    too_old now cached ∨ Event.timestamp cached > timestamp).
Proof.
  rewrite last_event_run. unfold cache_after_lookup.
  assert (Hfb : ∀ cache,
    store_fallback bucket_id timestamp (State cache (db st)) = (st', inr answer) ->
    ∃ s' events,
      db_get bucket_id 1 None (Some timestamp) (db st) = (s', inr events)
      ∧ answer = head events ∧ st' = State cache s').
  { intros cache. rewrite store_fallback_run. simpl.
    destruct (db_get bucket_id 1 None (Some timestamp) (db st))
      as [s' [err|events]]; intros Heq; [discriminate|].
    injection Heq as <- <-. exists s', events. auto. }
  destruct (last_event_cache st !! bucket_id) as [cached|] eqn:Hc.
  - destruct (decide (too_old now cached)) as [Hold|Hfresh].
    + intros Hrun. right. destruct (Hfb _ Hrun) as (s' & events & Hg & Ha & Hs).
      exists s', events. split; [exact Hg|]. split; [exact Ha|].
      split; [exact Hs|]. intros c Hc'. injection Hc' as <-. left. exact Hold.
    + destruct (decide (Event.timestamp cached > timestamp)) as [Hnew|Hle].
      * intros Hrun. right. destruct st as [cache s]. simpl in *.
        destruct (Hfb _ Hrun) as (s' & events & Hg & Ha & Hs).
        exists s', events. split; [exact Hg|]. split; [exact Ha|].
        split; [exact Hs|]. intros c Hc'. injection Hc' as <-. right. exact Hnew.
      * intros Heq. injection Heq as <- <-. left. exists cached.
        split; [reflexivity|]. split; [exact Hfresh|]. split; [lia|]. auto.
  - intros Hrun. right. destruct st as [cache s]. simpl in *.
    destruct (Hfb _ Hrun) as (s' & events & Hg & Ha & Hs).
    exists s', events. split; [exact Hg|]. split; [exact Ha|].
    split; [exact Hs|]. intros c Hc'. discriminate Hc'.
Qed.

End LookupAnswers.

(** ** The handler: frame, merge path and decorator *)

Section HandlerPaths.

Context {S : Type} `{Datastore S}.
Context {Pulse : Type}.
Variable heartbeat_merge : Event.t -> Event.t -> Pulse -> option Event.t.

Lemma cache_after_lookup_other (now : Z) (bucket_id other : string)
    (cache : gmap string Event.t) :
  other ≠ bucket_id ->
  cache_after_lookup now bucket_id cache !! other = cache !! other.
Proof.
  intros Hne. unfold cache_after_lookup.
  destruct (cache !! bucket_id) as [cached|]; [|reflexivity].
  destruct (decide (too_old now cached)); [|reflexivity].
  apply lookup_delete_ne. congruence.
Qed.

(** The caches a call can end with. *)
Lemma heartbeat_cache_shape (now : Z) (bucket_id : string) (hb : Event.t)
    (pulsetime : Pulse) (st st' : state S) (r : exn + Event.t) :
  heartbeat heartbeat_merge now bucket_id hb pulsetime st = (st', r) ->
  last_event_cache st' = last_event_cache st
  ∨ last_event_cache st'
    = cache_after_lookup now bucket_id (last_event_cache st)
  ∨ ∃ ev, r = inr ev
          ∧ last_event_cache st'
            = <[bucket_id := ev]>
                (cache_after_lookup now bucket_id (last_event_cache st)).
Proof.
  intros Hrun.
  unfold heartbeat, check_bucket_exists, bind, call, raise in Hrun.
  destruct (db_buckets (db st)) as [s1 [err|bs]] eqn:Hb.
  { injection Hrun as <- <-. left. reflexivity. }
  destruct (decide (bucket_id ∈ bs)) as [Hin|Hout].
  2:{ injection Hrun as <- <-. left. reflexivity. }
  rewrite heartbeat_body_run in Hrun.
  destruct (_last_event now bucket_id (Event.timestamp hb)
              (State (last_event_cache st) s1)) as [st2 [err|last]] eqn:Hlast.
  { injection Hrun as <- <-. right. left.
    exact (last_event_leaves _ _ _ _ _ _ Hlast). }
  pose proof (last_event_leaves _ _ _ _ _ _ Hlast) as Hcache. simpl in Hcache.
  assert (Hins : insert_new bucket_id hb st2 = (st', r) ->
    last_event_cache st'
      = cache_after_lookup now bucket_id (last_event_cache st)
    ∨ ∃ ev, r = inr ev
            ∧ last_event_cache st'
              = <[bucket_id := ev]>
                  (cache_after_lookup now bucket_id (last_event_cache st))).
  { rewrite insert_new_run.
    destruct (db_insert bucket_id hb (db st2)) as [s3 [err|stored]];
      intros Heq; injection Heq as <- <-; simpl; rewrite Hcache;
      [left; reflexivity|right; eauto]. }
  right.
  destruct last as [l|]; [|exact (Hins Hrun)].
  destruct (data_eq (Event.data l) (Event.data hb)); [|exact (Hins Hrun)].
  destruct (heartbeat_merge l hb pulsetime) as [merged|]; [|exact (Hins Hrun)].
  rewrite replace_last_run in Hrun.
  destruct (db_replace bucket_id (Event.id l) merged (db st2))
    as [s3 [err|returned]]; injection Hrun as <- <-; simpl; rewrite Hcache;
    [left; reflexivity|right; eauto].
Qed.

(** X3. Whatever a call for one bucket does, returning or raising, the
    cached events of all other buckets are as they were. *)
Theorem heartbeat_other_buckets_untouched
    (now : Z) (bucket_id other : string) (hb : Event.t) (pulsetime : Pulse)
    (st st' : state S) (r : exn + Event.t) :
  heartbeat heartbeat_merge now bucket_id hb pulsetime st = (st', r) ->
  other ≠ bucket_id ->
  last_event_cache st' !! other = last_event_cache st !! other.
Proof.
  intros Hrun Hne.
  destruct (heartbeat_cache_shape _ _ _ _ _ _ _ Hrun)
    as [-> | [-> | (ev & _ & ->)]].
  - reflexivity.
  - apply cache_after_lookup_other. exact Hne.
  - rewrite lookup_insert_ne by congruence.
    apply cache_after_lookup_other. exact Hne.
Qed.

(** X4. When the lookup finds an event with the heartbeat's data and the
    merge function returns a merged event, the handler calls [db_replace]
    with the identity of the event found and the merged event, and never
    [db_insert]; when that call returns, the merged event is cached and
    returned; when it raises, the cache is the one the lookup left. *)
Theorem heartbeat_merge_replaces
    (now : Z) (bucket_id : string) (hb : Event.t) (pulsetime : Pulse)
    (st st2 : state S) (s1 : S) (bs : gset string) (last merged : Event.t) :
  db_buckets (db st) = (s1, inr bs) ->
  bucket_id ∈ bs ->
  _last_event now bucket_id (Event.timestamp hb) (State (last_event_cache st) s1)
    = (st2, inr (Some last)) ->
  Event.data last = Event.data hb ->
  heartbeat_merge last hb pulsetime = Some merged ->
  heartbeat heartbeat_merge now bucket_id hb pulsetime st =
    match db_replace bucket_id (Event.id last) merged (db st2) with
    | (s3, inl e) => (State (last_event_cache st2) s3, inl e)
    | (s3, inr returned) =>
        (State (<[bucket_id := merged]> (last_event_cache st2)) s3, inr merged)
    end.
Proof.
  intros Hb Hin Hlast Hdata Hm.
  apply (heartbeat_replace_outcome heartbeat_merge _ _ _ _ _ _ _ _ _ _
           Hb Hin Hlast); [|exact Hm].
  rewrite Hdata. apply data_eq_refl.
Qed.

(** X5. What the decorator lets through: the decorated function runs only
    when [db.buckets()] returned and lists the bucket, and then on the
    state that call left; when the bucket is not listed the call raises
    [NoSuchBucket] with the bucket's name in the message, and when
    [db.buckets()] raises, that exception is the outcome.  In the last two
    cases the cache is untouched. *)
Theorem check_bucket_exists_lets_through {A : Type}
    (f : string -> M S A) (bucket_id : string) (st st' : state S) (r : exn + A) :
  check_bucket_exists f bucket_id st = (st', r) ->
  (∃ s1 bs, db_buckets (db st) = (s1, inr bs)
            ∧ bucket_id ∈ bs
            ∧ f bucket_id (State (last_event_cache st) s1) = (st', r))
  ∨ (∃ s1 bs, db_buckets (db st) = (s1, inr bs)
              ∧ (bucket_id ∉ bs)
              ∧ st' = State (last_event_cache st) s1
              ∧ r = inl (BadRequest "NoSuchBucket"
                           ("There's no bucket named " +:+ bucket_id)))
  ∨ (∃ s1 e, db_buckets (db st) = (s1, inl e)
             ∧ st' = State (last_event_cache st) s1
             ∧ r = inl e).
Proof.
  unfold check_bucket_exists, bind, call, raise.
  destruct (db_buckets (db st)) as [s1 [e|bs]].
  - intros Heq. injection Heq as <- <-. right. right. exists s1, e. auto.
  - destruct (decide (bucket_id ∈ bs)) as [Hin|Hout].
    + intros Hf. left. exists s1, bs. auto.
    + intros Heq. injection Heq as <- <-. right. left. exists s1, bs. auto.
Qed.

(** X6. A call answered from the cache makes no read: with a cached event
    that is not too old and not newer than the heartbeat, the datastore
    sees [buckets()] and then the one write, [db_replace] under the cached
    event's identity when the data are [==] and the merge function merges,
    [db_insert] of the heartbeat otherwise. *)
Theorem heartbeat_served_from_cache
    (now : Z) (bucket_id : string) (hb : Event.t) (pulsetime : Pulse)
    (st : state S) (s1 : S) (bs : gset string) (cached : Event.t) :
  db_buckets (db st) = (s1, inr bs) ->
  bucket_id ∈ bs ->
  last_event_cache st !! bucket_id = Some cached ->
  ¬ too_old now cached ->
  Event.timestamp cached <= Event.timestamp hb ->
  heartbeat heartbeat_merge now bucket_id hb pulsetime st =
    let insert :=
      match db_insert bucket_id hb s1 with
      | (s3, inl e) => (State (last_event_cache st) s3, inl e)
      | (s3, inr stored) =>
          (State (<[bucket_id := hb]> (last_event_cache st)) s3, inr hb)
      end in
    if data_eq (Event.data cached) (Event.data hb) then
      match heartbeat_merge cached hb pulsetime with
      | Some merged =>
          match db_replace bucket_id (Event.id cached) merged s1 with
          | (s3, inl e) => (State (last_event_cache st) s3, inl e)
          | (s3, inr returned) =>
              (State (<[bucket_id := merged]> (last_event_cache st)) s3,
               inr merged)
          end
      | None => insert
      end
    else insert.
Proof.
  intros Hb Hin Hc Hfresh Hle.
  rewrite (heartbeat_checked _ _ _ _ _ _ _ _ Hb Hin), heartbeat_body_run.
  rewrite (last_event_hit now bucket_id (Event.timestamp hb)
             (State (last_event_cache st) s1) cached Hc Hfresh Hle).
  simpl.
  destruct (data_eq (Event.data cached) (Event.data hb)).
  - destruct (heartbeat_merge cached hb pulsetime) as [merged|].
    + apply (replace_last_run bucket_id cached merged
               (State (last_event_cache st) s1)).
    + apply (insert_new_run bucket_id hb (State (last_event_cache st) s1)).
  - apply (insert_new_run bucket_id hb (State (last_event_cache st) s1)).
Qed.

End HandlerPaths.

(** ** The calls a heartbeat makes *)

Section CallSequence.

Context {S : Type} `{Datastore S}.
Context {Pulse : Type}.
Variable heartbeat_merge : Event.t -> Event.t -> Pulse -> option Event.t.

Lemma traced_buckets (s s' : Traced.t S) (r : exn + gset string) :
  db_buckets s = (s', r) ->
  Traced.log s' = Traced.log s ++ [Traced.Buckets].
Proof.
  simpl. unfold Traced.record.
  destruct (db_buckets (Traced.inner s)) as [s0 r0].
  intros Heq. injection Heq as <- _. reflexivity.
Qed.

Lemma traced_get (b : string) (limit : Z) (starttime endtime : option Z)
    (s s' : Traced.t S) (r : exn + list Event.t) :
  db_get b limit starttime endtime s = (s', r) ->
  Traced.log s' = Traced.log s ++ [Traced.Get b limit starttime endtime].
Proof.
  simpl. unfold Traced.record.
  destruct (db_get b limit starttime endtime (Traced.inner s)) as [s0 r0].
  intros Heq. injection Heq as <- _. reflexivity.
Qed.

Lemma traced_insert (b : string) (e : Event.t)
    (s s' : Traced.t S) (r : exn + Event.t) :
  db_insert b e s = (s', r) ->
  Traced.log s' = Traced.log s ++ [Traced.Insert b e].
Proof.
  simpl. unfold Traced.record.
  destruct (db_insert b e (Traced.inner s)) as [s0 r0].
  intros Heq. injection Heq as <- _. reflexivity.
Qed.

Lemma traced_replace (b : string) (i : option Z) (e : Event.t)
    (s s' : Traced.t S) (r : exn + Event.t) :
  db_replace b i e s = (s', r) ->
  Traced.log s' = Traced.log s ++ [Traced.Replace b i e].
Proof.
  simpl. unfold Traced.record.
  destruct (db_replace b i e (Traced.inner s)) as [s0 r0].
  intros Heq. injection Heq as <- _. reflexivity.
Qed.

(** The lookup makes no call, or the one read; it raises only out of the
    read. *)
Lemma traced_last_event (now : Z) (b : string) (timestamp : Z)
    (st st2 : state (Traced.t S)) (r : exn + option Event.t) :
  _last_event now b timestamp st = (st2, r) ->
  (Traced.log (db st2) = Traced.log (db st) ∧ ∃ answer, r = inr answer)
  ∨ Traced.log (db st2)
    = Traced.log (db st) ++ [Traced.Get b 1 None (Some timestamp)].
Proof.
  rewrite last_event_run.
  assert (Hfb : ∀ cache,
    store_fallback b timestamp (State cache (db st)) = (st2, r) ->
    Traced.log (db st2)
      = Traced.log (db st) ++ [Traced.Get b 1 None (Some timestamp)]).
  { intros cache. rewrite store_fallback_run.
    destruct (db_get b 1 None (Some timestamp) (db (State cache (db st))))
      as [s' [err|events]] eqn:Hget; intros Heq; injection Heq as <- _;
      exact (traced_get _ _ _ _ _ _ _ Hget). }
  destruct (last_event_cache st !! b) as [cached|].
  - destruct (decide (too_old now cached)).
    + intros Hrun. right. exact (Hfb _ Hrun).
    + destruct (decide (Event.timestamp cached > timestamp)).
      * intros Hrun. right. destruct st as [cache s]. exact (Hfb _ Hrun).
      * intros Heq. injection Heq as <- <-. left. eauto.
  - intros Hrun. right. destruct st as [cache s]. exact (Hfb _ Hrun).
Qed.

(** X7. The calls one heartbeat makes to the datastore, in order:
    [buckets()]; then at most one read, which is
    [get(limit=1, endtime=heartbeat.timestamp)]; then at most one write.  A
    call that returns has made exactly one write, either the insert of the
    heartbeat, which it returns, or the replace by the event it returns;
    it never makes both, and never more than one read. *)
Theorem heartbeat_call_sequence
    (now : Z) (bucket_id : string) (hb : Event.t) (pulsetime : Pulse)
    (st st' : state (Traced.t S)) (r : exn + Event.t) :
  heartbeat heartbeat_merge now bucket_id hb pulsetime st = (st', r) ->
  ∃ reads writes,
    Traced.log (db st')
      = Traced.log (db st) ++ Traced.Buckets :: reads ++ writes
    ∧ (reads = []
       ∨ reads = [Traced.Get bucket_id 1 None (Some (Event.timestamp hb))])
    ∧ match r with
      | inr ev =>
          (writes = [Traced.Insert bucket_id hb] ∧ ev = hb)
          ∨ ∃ i, writes = [Traced.Replace bucket_id i ev]
      | inl _ =>
          writes = []
          ∨ writes = [Traced.Insert bucket_id hb]
          ∨ ∃ i merged, writes = [Traced.Replace bucket_id i merged]
      end.
Proof.
  intros Hrun.
  unfold heartbeat, check_bucket_exists, bind, call, raise in Hrun.
  destruct (db_buckets (db st)) as [s1 [err|bs]] eqn:Hb;
    pose proof (traced_buckets _ _ _ Hb) as Hlog1.
  { injection Hrun as <- <-. exists [], []. simpl.
    split; [exact Hlog1|]. auto. }
  destruct (decide (bucket_id ∈ bs)) as [Hin|Hout].
  2:{ injection Hrun as <- <-. exists [], []. simpl.
      split; [exact Hlog1|]. auto. }
  rewrite heartbeat_body_run in Hrun.
  destruct (_last_event now bucket_id (Event.timestamp hb)
              (State (last_event_cache st) s1)) as [st2 [err|last]] eqn:Hlast;
    pose proof (traced_last_event _ _ _ _ _ _ Hlast) as Hlog2;
    simpl in Hlog2.
  { injection Hrun as <- <-.
    destruct Hlog2 as [[_ [answer Habs]]|Hlog2]; [discriminate|].
    exists [Traced.Get bucket_id 1 None (Some (Event.timestamp hb))], [].
    rewrite Hlog2, Hlog1, <- app_assoc. simpl. auto. }
  assert (Hreads : ∃ reads,
    Traced.log (db st2) = Traced.log (db st) ++ Traced.Buckets :: reads
    ∧ (reads = []
       ∨ reads = [Traced.Get bucket_id 1 None (Some (Event.timestamp hb))])).
  { destruct Hlog2 as [[Hlog2 _]|Hlog2].
    - exists []. rewrite Hlog2, Hlog1. auto.
    - exists [Traced.Get bucket_id 1 None (Some (Event.timestamp hb))].
      rewrite Hlog2, Hlog1, <- app_assoc. auto. }
  destruct Hreads as (reads & Hlog & Hreads).
  assert (Hins : insert_new bucket_id hb st2 = (st', r) ->
    ∃ writes,
      Traced.log (db st') = Traced.log (db st2) ++ writes
      ∧ match r with
        | inr ev =>
            (writes = [Traced.Insert bucket_id hb] ∧ ev = hb)
            ∨ ∃ i, writes = [Traced.Replace bucket_id i ev]
        | inl _ =>
            writes = []
            ∨ writes = [Traced.Insert bucket_id hb]
            ∨ ∃ i merged, writes = [Traced.Replace bucket_id i merged]
        end).
  { rewrite insert_new_run.
    destruct (db_insert bucket_id hb (db st2)) as [s3 [err|stored]] eqn:Hdb;
      pose proof (traced_insert _ _ _ _ _ Hdb) as Hlog3;
      intros Heq; injection Heq as <- <-;
      exists [Traced.Insert bucket_id hb]; simpl; auto. }
  assert (Hend : (∃ writes,
      Traced.log (db st') = Traced.log (db st2) ++ writes
      ∧ match r with
        | inr ev =>
            (writes = [Traced.Insert bucket_id hb] ∧ ev = hb)
            ∨ ∃ i, writes = [Traced.Replace bucket_id i ev]
        | inl _ =>
            writes = []
            ∨ writes = [Traced.Insert bucket_id hb]
            ∨ ∃ i merged, writes = [Traced.Replace bucket_id i merged]
        end)).
  { destruct last as [l|]; [|exact (Hins Hrun)].
    destruct (data_eq (Event.data l) (Event.data hb));
      [|exact (Hins Hrun)].
    destruct (heartbeat_merge l hb pulsetime) as [merged|];
      [|exact (Hins Hrun)].
    rewrite replace_last_run in Hrun.
    destruct (db_replace bucket_id (Event.id l) merged (db st2))
      as [s3 [err|returned]] eqn:Hdb;
      pose proof (traced_replace _ _ _ _ _ _ Hdb) as Hlog3;
      injection Hrun as <- <-;
      exists [Traced.Replace bucket_id (Event.id l) merged]; simpl;
      (split; [exact Hlog3|]); eauto. }
  destruct Hend as (writes & Hlog3 & Hw).
  exists reads, writes. split; [|auto].
  rewrite Hlog3, Hlog, <- app_assoc. reflexivity.
Qed.

End CallSequence.

(** ** The endpoints beside the heartbeat *)

Section OtherEndpoints.

Context {S : Type} `{Datastore S} `{BucketAdmin S}.
Context {Pulse : Type}.

(** X8. A heartbeat submitted again.  With the merge function of the
    specification, when the cache holds the very heartbeat that is
    submitted (as the call that inserted it left it), the entry is not too
    old, the heartbeat has no duration and the pulse window is not
    negative, the call inserts nothing: it replaces under the heartbeat's
    own identity by an equal event, returns the heartbeat and leaves the
    cache as it was. *)
Theorem heartbeat_resubmitted
    (now : Z) (bucket_id : string) (hb : Event.t) (pulsetime : Z)
    (st : state S) (s1 : S) (bs : gset string) :
  db_buckets (db st) = (s1, inr bs) ->
  bucket_id ∈ bs ->
  last_event_cache st !! bucket_id = Some hb ->
  ¬ too_old now hb ->
  Event.duration hb = 0 ->
  0 <= pulsetime ->
  heartbeat transforms.heartbeat_merge now bucket_id hb pulsetime st =
    match db_replace bucket_id (Event.id hb) hb s1 with
    | (s3, inl e) => (State (last_event_cache st) s3, inl e)
    | (s3, inr returned) => (State (last_event_cache st) s3, inr hb)
    end.
Proof.
  intros Hb Hin Hc Hfresh Hzero Hpulse.
  rewrite (heartbeat_checked _ _ _ _ _ _ _ _ Hb Hin), heartbeat_body_run.
  rewrite (last_event_hit now bucket_id (Event.timestamp hb)
             (State (last_event_cache st) s1) hb Hc Hfresh (Z.le_refl _)).
  simpl.
  rewrite data_eq_refl.
  assert (Hm : transforms.heartbeat_merge hb hb pulsetime = Some hb).
  { unfold transforms.heartbeat_merge.
    destruct (decide (Event.timestamp hb
                      <= Event.timestamp hb + Event.duration hb + pulsetime))
      as [_|Hout]; [|lia].
    destruct hb as [i t d da]. simpl in *. subst d.
    do 2 f_equal. lia. }
  rewrite Hm, replace_last_run. simpl.
  destruct (db_replace bucket_id (Event.id hb) hb s1) as [s3 [err|returned]];
    [reflexivity|].
  rewrite (insert_id _ _ _ Hc). reflexivity.
Qed.

(** X9. Outside testing mode [delete_bucket] never reaches
    [db.delete_bucket]: it ends after [db.buckets()], with [NoSuchBucket]
    when the bucket is not listed (the decorator comes first) and with
    [PermissionDenied] when it is. *)
Theorem delete_bucket_outside_testing (bucket_id : string) (st : state S) :
  delete_bucket false bucket_id st =
    match db_buckets (db st) with
    | (s1, inl e) => (State (last_event_cache st) s1, inl e)
    | (s1, inr bs) =>
        (State (last_event_cache st) s1,
         inl (if decide (bucket_id ∈ bs)
              then BadRequest "PermissionDenied"
                     "Deleting buckets is only permitted if aw-server is running in testing mode"
              else BadRequest "NoSuchBucket"
                     ("There's no bucket named " +:+ bucket_id)))
    end.
Proof.
  unfold delete_bucket, check_bucket_exists, bind, call, raise.
  destruct (db_buckets (db st)) as [s1 [e|bs]]; [reflexivity|].
  destruct (decide (bucket_id ∈ bs)); reflexivity.
Qed.

(** The endpoints of this section do not touch [last_event_cache]. *)
Lemma check_bucket_exists_keeps_cache {A : Type}
    (f : string -> M S A) (bucket_id : string) (st : state S) :
  (∀ st0, last_event_cache (f bucket_id st0).1 = last_event_cache st0) ->
  last_event_cache (check_bucket_exists f bucket_id st).1 = last_event_cache st.
Proof.
  intros Hf. unfold check_bucket_exists, bind, call, raise.
  destruct (db_buckets (db st)) as [s1 [e|bs]]; [reflexivity|].
  destruct (decide (bucket_id ∈ bs)); [|reflexivity].
  rewrite Hf. reflexivity.
Qed.

Lemma call_keeps_cache {A : Type} (op : S -> S * (exn + A)) (st : state S) :
  last_event_cache (call op st).1 = last_event_cache st.
Proof. unfold call. destruct (op (db st)). reflexivity. Qed.

Lemma delete_bucket_keeps_cache (testing : bool) (bucket_id : string)
    (st : state S) :
  last_event_cache (delete_bucket testing bucket_id st).1 = last_event_cache st.
Proof.
  apply check_bucket_exists_keeps_cache. intros st0.
  destruct testing; simpl; [|reflexivity].
  unfold bind, call, ret. destruct (db_delete_bucket bucket_id (db st0))
    as [s' [e|[]]]; reflexivity.
Qed.

Lemma create_events_keeps_cache (bucket_id : string) (events : list Event.t)
    (st : state S) :
  last_event_cache (create_events bucket_id events st).1 = last_event_cache st.
Proof.
  apply check_bucket_exists_keeps_cache. intros st0.
  destruct events as [|e [|e' rest]]; try apply call_keeps_cache.
  unfold bind, call, ret.
  destruct (db_insert bucket_id e (db st0)) as [s' [err|stored]]; reflexivity.
Qed.

(** X10. Deleting a bucket does not drop its cached event: after a
    [delete_bucket] that returned, a lookup for that bucket still answers
    with the cached event, when it is not too old and not newer than the
    timestamp, and does not ask the datastore. *)
Theorem delete_bucket_leaves_cached_event
    (now : Z) (bucket_id : string) (timestamp : Z) (st st' : state S)
    (cached : Event.t) :
  delete_bucket true bucket_id st = (st', inr tt) ->
  last_event_cache st !! bucket_id = Some cached ->
  ¬ too_old now cached ->
  Event.timestamp cached <= timestamp ->
  last_event_cache st' = last_event_cache st
  ∧ _last_event now bucket_id timestamp st' = (st', inr (Some cached)).
Proof.
  intros Hrun Hc Hfresh Hle.
  pose proof (delete_bucket_keeps_cache true bucket_id st) as Hk.
  rewrite Hrun in Hk. simpl in Hk.
  split; [exact Hk|].
  apply last_event_hit; [rewrite Hk; exact Hc|exact Hfresh|exact Hle].
Qed.

(** X11. Events written through [create_events] do not reach the cache:
    whatever the call stores, a heartbeat lookup that follows still answers
    with the event cached before, when it is not too old and not newer than
    the timestamp, without reading the datastore. *)
Theorem create_events_bypasses_cache
    (now : Z) (bucket_id : string) (events : list Event.t) (timestamp : Z)
    (st st' : state S) (r : exn + option Event.t) (cached : Event.t) :
  create_events bucket_id events st = (st', r) ->
  last_event_cache st !! bucket_id = Some cached ->
  ¬ too_old now cached ->
  Event.timestamp cached <= timestamp ->
  last_event_cache st' = last_event_cache st
  ∧ _last_event now bucket_id timestamp st' = (st', inr (Some cached)).
Proof.
  intros Hrun Hc Hfresh Hle.
  pose proof (create_events_keeps_cache bucket_id events st) as Hk.
  rewrite Hrun in Hk. simpl in Hk.
  split; [exact Hk|].
  apply last_event_hit; [rewrite Hk; exact Hc|exact Hfresh|exact Hle].
Qed.

(** X12. What [create_events] hands to [insert], for a listed bucket: the
    event itself when the list has exactly one, and it then returns what
    [insert] returned; the list as it is otherwise, the empty list
    included. *)
Theorem create_events_dispatch
    (bucket_id : string) (events : list Event.t) (st : state S)
    (s1 : S) (bs : gset string) :
  db_buckets (db st) = (s1, inr bs) ->
  bucket_id ∈ bs ->
  create_events bucket_id events st =
    match events with
    | [event] =>
        match db_insert bucket_id event s1 with
        | (s2, inl e) => (State (last_event_cache st) s2, inl e)
        | (s2, inr stored) => (State (last_event_cache st) s2, inr (Some stored))
        end
    | _ =>
        match db_insert_list bucket_id events s1 with
        | (s2, r) => (State (last_event_cache st) s2, r)
        end
    end
  ∧ (length events ≠ 1%nat ->
     create_events bucket_id events st =
       match db_insert_list bucket_id events s1 with
       | (s2, r) => (State (last_event_cache st) s2, r)
       end).
Proof.
  intros Hb Hin.
  assert (Hrun : create_events bucket_id events st =
    match events with
    | [event] =>
        match db_insert bucket_id event s1 with
        | (s2, inl e) => (State (last_event_cache st) s2, inl e)
        | (s2, inr stored) => (State (last_event_cache st) s2, inr (Some stored))
        end
    | _ =>
        match db_insert_list bucket_id events s1 with
        | (s2, r) => (State (last_event_cache st) s2, r)
        end
    end).
  { unfold create_events, check_bucket_exists, bind, call, ret. rewrite Hb.
    destruct (decide (bucket_id ∈ bs)) as [_|Hout]; [|contradiction].
    destruct events as [|ev [|ev' rest]]; simpl; try reflexivity.
    destruct (db_insert bucket_id ev s1) as [s2 [err|stored]]; reflexivity. }
  split; [exact Hrun|].
  intros Hlen. rewrite Hrun.
  destruct events as [|e [|e' rest]]; [reflexivity| |reflexivity].
  simpl in Hlen. contradiction.
Qed.

End OtherEndpoints.

(** ** Creating buckets and listing them *)

Section Buckets.

Context {S : Type} `{Datastore S} `{BucketAdmin S}.
Context {Pulse : Type}.
Variable heartbeat_merge : Event.t -> Event.t -> Pulse -> option Event.t.
Variable isoformat : Z -> string.

(** X13. Once [create_bucket] has returned and the datastore lists the
    bucket, creating it again raises [BucketExists] without another call of
    [db.create_bucket], and a heartbeat for it passes the decorator: it runs
    the handler on the state the listing left. *)
Theorem create_bucket_then
    (now now' : Z) (bucket_id event_type client hostname : string)
    (event_type' client' hostname' : string) (hb : Event.t) (pulsetime : Pulse)
    (st st1 : state S) (s2 : S) (bs : gset string) :
  create_bucket now bucket_id event_type client hostname st = (st1, inr tt) ->
  db_buckets (db st1) = (s2, inr bs) ->
  bucket_id ∈ bs ->
  last_event_cache st1 = last_event_cache st
  ∧ create_bucket now' bucket_id event_type' client' hostname' st1
    = (State (last_event_cache st) s2,
       inl (BadRequest "BucketExists"
              "A bucket with this name already exists, cannot create it"))
  ∧ heartbeat heartbeat_merge now' bucket_id hb pulsetime st1
    = heartbeat_body heartbeat_merge now' bucket_id hb pulsetime
        (State (last_event_cache st) s2).
Proof.
  intros Hrun Hb Hin.
  assert (Hk : last_event_cache st1 = last_event_cache st).
  { unfold create_bucket, bind, call, raise, ret in Hrun.
    destruct (db_buckets (db st)) as [s1 [err|bs0]]; [discriminate|].
    destruct (decide (bucket_id ∈ bs0)) as [_|_]; [discriminate|].
    simpl in Hrun.
    destruct (db_create_bucket bucket_id event_type client hostname now s1)
      as [s3 [err|[]]]; [discriminate|].
    injection Hrun as <-. reflexivity. }
  split; [exact Hk|]. split.
  - unfold create_bucket, bind, call, raise. rewrite Hb, Hk.
    destruct (decide (bucket_id ∈ bs)) as [_|Hout]; [reflexivity|contradiction].
  - rewrite (heartbeat_checked _ _ _ _ _ _ _ _ Hb Hin), Hk. reflexivity.
Qed.

Lemma get_buckets_loop_listed (buckets : list (string * gmap string value)) :
  ∀ (st st' : state S) (out : list (string * gmap string value)),
    get_buckets_loop isoformat buckets st = (st', inr out) ->
    Forall2 (bucket_listed isoformat) buckets out
    ∧ last_event_cache st' = last_event_cache st.
Proof.
  induction buckets as [|[b bucket] rest IH]; intros st st' out; simpl.
  - unfold ret. intros Heq. injection Heq as <- <-. split; [constructor|reflexivity].
  - unfold bind at 1. unfold call at 1.
    destruct (db_get b 1 None None (db st)) as [s1 [err|last_events]];
      [discriminate|].
    unfold bind at 1.
    destruct (get_buckets_loop isoformat rest (State (last_event_cache st) s1))
      as [st2 [err|out']] eqn:Hrest; [discriminate|].
    unfold ret. intros Heq. injection Heq as <- <-.
    destruct (IH _ _ _ Hrest) as [Hall Hk]. simpl in Hk.
    split; [|exact Hk].
    constructor; [|exact Hall].
    split; [reflexivity|]. simpl.
    destruct last_events as [|last_event more]; [left; reflexivity|].
    right. exists last_event. reflexivity.
Qed.

(** X14. What [get_buckets] returns, when it returns: the buckets of
    [db.buckets()], as many and in the same order, under the same ids, each
    with its dictionary either as it was or with the one key
    [last_updated] set to the formatted end of some event; no other key
    is added, removed or changed, and the cache is not touched. *)
Theorem get_buckets_listing (st st' : state S)
    (out : list (string * gmap string value)) :
  get_buckets isoformat st = (st', inr out) ->
  ∃ s1 buckets,
    db_bucket_dicts (db st) = (s1, inr buckets)
    ∧ Forall2 (bucket_listed isoformat) buckets out
    ∧ out.*1 = buckets.*1
    ∧ last_event_cache st' = last_event_cache st.
Proof.
  unfold get_buckets, bind, call.
  destruct (db_bucket_dicts (db st)) as [s1 [err|buckets]]; [discriminate|].
  intros Hloop. destruct (get_buckets_loop_listed _ _ _ _ Hloop) as [Hall Hk].
  exists s1, buckets. split; [reflexivity|]. split; [exact Hall|].
  split; [|exact Hk].
  clear Hloop Hk. induction Hall as [|x y l l' [Hxy _] _ IH]; [reflexivity|].
  rewrite !fmap_cons. f_equal; [exact Hxy|exact IH].
Qed.

Lemma get_buckets_loop_pure (s1 : S) (cache : gmap string Event.t)
    (buckets : list (string * gmap string value)) :
  (∀ item, item ∈ buckets ->
           ∃ events, db_get item.1 1 None None s1 = (s1, inr events)) ->
  get_buckets_loop isoformat buckets (State cache s1)
    = (State cache s1, inr (with_last_updated isoformat s1 <$> buckets)).
Proof.
  induction buckets as [|[b bucket] rest IH]; intros Hpure; [reflexivity|].
  simpl. unfold bind at 1. unfold call at 1. simpl.
  destruct (Hpure (b, bucket)) as [events Hget]; [left|]. simpl in Hget.
  rewrite Hget. unfold bind at 1.
  rewrite IH by (intros item Hitem; apply Hpure; right; exact Hitem).
  unfold ret, with_last_updated at 2. simpl. rewrite Hget.
  destruct events; reflexivity.
Qed.

(** X15. When the reads [get(limit=1)] of the listed buckets return and
    leave the datastore as it is, [get_buckets] returns every bucket of
    [db.buckets()] in order: the buckets whose read is empty with their
    dictionary unchanged, the others with [last_updated] set to the
    formatted [timestamp + duration] of the first event read. *)
Theorem get_buckets_last_updated (st : state S) (s1 : S)
    (buckets : list (string * gmap string value)) :
  db_bucket_dicts (db st) = (s1, inr buckets) ->
  (∀ item, item ∈ buckets ->
           ∃ events, db_get item.1 1 None None s1 = (s1, inr events)) ->
  get_buckets isoformat st
    = (State (last_event_cache st) s1,
       inr (with_last_updated isoformat s1 <$> buckets)).
Proof.
  intros Hb Hpure. unfold get_buckets, bind, call. rewrite Hb.
  apply get_buckets_loop_pure. exact Hpure.
Qed.

End Buckets.

(** ** Views and the log *)

Section ViewsAndLogFacts.

Context {V : Type}.
Variable views_create_view : gmap string value -> V -> V * (exn + unit).
Context {E Json : Type}.
Variable json_loads : string -> E + Json.

(** X16. The dictionary [create_view] leaves and hands to
    [views.create_view]: [name] is the view name, whatever [name] held
    before; [created] is what the caller supplied, and the current time only
    when the caller supplied none; every other key is as the caller set
    it. *)
Theorem create_view_fields (now_iso viewname : string)
    (view : gmap string value) (v : V) :
  let result := create_view views_create_view now_iso viewname view v in
  result.1 !! "name"%string = Some (VStr viewname)
  ∧ result.1 !! "created"%string
    = Some (default (VStr now_iso) (view !! "created"%string))
  ∧ (∀ key, key ≠ "name"%string -> key ≠ "created"%string ->
            result.1 !! key = view !! key)
  ∧ result.2 = views_create_view result.1 v.
Proof.
  unfold create_view. simpl.
  assert (Hc : <["name"%string := VStr viewname]> view !! "created"%string
               = view !! "created"%string)
    by (apply lookup_insert_ne; discriminate).
  destruct (decide (<["name"%string := VStr viewname]> view !! "created"%string
                    = None)) as [Hnone|Hsome].
  - split; [rewrite lookup_insert_ne by discriminate; apply lookup_insert_eq|].
    split; [rewrite lookup_insert_eq, <- Hc, Hnone; reflexivity|].
    split; [|reflexivity].
    intros key Hn Hcr. rewrite !lookup_insert_ne by congruence. reflexivity.
  - split; [apply lookup_insert_eq|].
    split.
    + rewrite Hc in *. destruct (view !! "created"%string);
        [reflexivity|contradiction].
    + split; [|reflexivity].
      intros key Hn Hcr. rewrite lookup_insert_ne by congruence. reflexivity.
Qed.

(** X17. Creating a view again from the dictionary a first call left, under
    the same name, at any later time and whatever the views then are, hands
    [views.create_view] the same dictionary: the [created] of the first
    call is kept. *)
Theorem create_view_again (now_iso later_iso viewname : string)
    (view : gmap string value) (v v' : V) :
  (create_view views_create_view later_iso viewname
     (create_view views_create_view now_iso viewname view v).1 v').1
  = (create_view views_create_view now_iso viewname view v).1.
Proof.
  unfold create_view. simpl.
  set (named := <["name"%string := VStr viewname]> view).
  assert (Hnamed : ∀ m : gmap string value,
            m !! "name"%string = Some (VStr viewname) ->
            <["name"%string := VStr viewname]> m = m)
    by (intros m Hm; apply insert_id; exact Hm).
  destruct (decide (named !! "created"%string = None)) as [Hnone|Hsome].
  - rewrite Hnamed
      by (rewrite lookup_insert_ne by discriminate; apply lookup_insert_eq).
    destruct (decide (<["created"%string := VStr now_iso]> named
                        !! "created"%string = None)) as [Habs|_];
      [|reflexivity].
    rewrite lookup_insert_eq in Habs. discriminate Habs.
  - rewrite Hnamed by apply lookup_insert_eq.
    destruct (decide (named !! "created"%string = None)); [contradiction|].
    reflexivity.
Qed.

Lemma get_log_loop_returns (lines : list string) :
  ∀ (payload out : list Json),
    get_log_loop json_loads lines payload = inr out
    ↔ ∃ entries,
        Forall2 (fun line entry => json_loads line = inr entry) lines entries
        ∧ out = payload ++ entries.
Proof.
  induction lines as [|line rest IH]; intros payload out; simpl.
  - split.
    + intros Heq. injection Heq as <-. exists []. split; [constructor|].
      rewrite app_nil_r. reflexivity.
    + intros (entries & Hall & ->). inversion Hall. rewrite app_nil_r.
      reflexivity.
  - destruct (json_loads line) as [e|entry] eqn:Hline.
    + split; [discriminate|].
      intros (entries & Hall & _). inversion Hall; subst. congruence.
    + rewrite IH. split.
      * intros (entries & Hall & ->). exists (entry :: entries).
        split; [constructor; assumption|]. rewrite <- app_assoc. reflexivity.
      * intros (entries & Hall & ->). inversion Hall as [|? entry' ? rest' Hl Hr];
          subst. assert (entry' = entry) by congruence. subst entry'.
        exists rest'. split; [exact Hr|]. rewrite <- app_assoc. reflexivity.
Qed.

(** X18. [get_log] returns exactly when every line of the file parses; the
    payload then holds one entry per line, the entries of the lines in
    reverse order of the file, and the status is 200. *)
Theorem get_log_returns (readlines : list string) (payload : list Json)
    (status : Z) :
  get_log json_loads readlines = inr (payload, status)
  ↔ status = 200
    ∧ Forall2 (fun line entry => json_loads line = inr entry)
        (reverse readlines) payload.
Proof.
  unfold get_log.
  destruct (get_log_loop json_loads (reverse readlines) []) as [e|out] eqn:Hloop.
  - split; [discriminate|].
    intros [_ Hall].
    assert (Hr : get_log_loop json_loads (reverse readlines) [] = inr payload)
      by (apply get_log_loop_returns; exists payload; auto).
    congruence.
  - apply get_log_loop_returns in Hloop as (entries & Hall & ->). simpl.
    split.
    + intros Heq. injection Heq as <- <-. auto.
    + intros [-> Hall']. do 2 f_equal.
      clear -Hall Hall'. revert payload Hall'.
      induction Hall as [|l x ls xs Hx _ IH]; intros payload Hall';
        inversion Hall' as [|? y ? ys Hy Hys]; subst; [reflexivity|].
      f_equal; [congruence|apply IH; exact Hys].
Qed.

Lemma get_log_loop_raises (lines : list string) :
  ∀ (payload : list Json) (e : E),
    get_log_loop json_loads lines payload = inl e
    ↔ ∃ good bad rest,
        lines = good ++ bad :: rest
        ∧ Forall (fun line => ∃ entry, json_loads line = inr entry) good
        ∧ json_loads bad = inl e.
Proof.
  induction lines as [|line more IH]; intros payload e; simpl.
  - split; [discriminate|].
    intros (good & bad & rest & Heq & _). destruct good; discriminate Heq.
  - destruct (json_loads line) as [e0|entry] eqn:Hline.
    + split.
      * intros Heq. injection Heq as <-. exists [], line, more. auto.
      * intros (good & bad & rest & Heq & Hgood & Hbad).
        destruct good as [|g good'].
        -- simpl in Heq. injection Heq as <- _. congruence.
        -- simpl in Heq. injection Heq as <- _.
           inversion Hgood as [|? ? [entry Hentry] _]; subst. congruence.
    + rewrite IH. split.
      * intros (good & bad & rest & -> & Hgood & Hbad).
        exists (line :: good), bad, rest.
        split; [reflexivity|]. split; [constructor; eauto|exact Hbad].
      * intros (good & bad & rest & Heq & Hgood & Hbad).
        destruct good as [|g good'].
        -- simpl in Heq. injection Heq as <- _. congruence.
        -- simpl in Heq. injection Heq as <- ->.
           inversion Hgood; subst. exists good', bad, rest. auto.
Qed.

(** X19. [get_log] raises exactly the exception [json.loads] raises on the
    last line of the file that does not parse: the lines after it have all
    parsed, and no line before it is looked at. *)
Theorem get_log_raises (readlines : list string) (e : E) :
  get_log json_loads readlines = inl e
  ↔ ∃ before bad after,
      readlines = before ++ bad :: after
      ∧ json_loads bad = inl e
      ∧ Forall (fun line => ∃ entry, json_loads line = inr entry) after.
Proof.
  unfold get_log.
  destruct (get_log_loop json_loads (reverse readlines) []) as [e0|out] eqn:Hloop.
  - apply get_log_loop_raises in Hloop as (good & bad & rest & Hrev & Hgood & Hbad).
    assert (Hlines : readlines = reverse rest ++ bad :: reverse good).
    { rewrite <- (reverse_involutive readlines), Hrev.
      rewrite reverse_app, reverse_cons, <- app_assoc. reflexivity. }
    split.
    + intros Heq. injection Heq as <-.
      exists (reverse rest), bad, (reverse good).
      split; [exact Hlines|]. split; [exact Hbad|].
      apply Forall_reverse. exact Hgood.
    + intros (before & bad' & after & Heq & Hbad' & Hafter).
      assert (Hloop' : get_log_loop json_loads (reverse readlines) [] = inl e).
      { apply get_log_loop_raises. exists (reverse after), bad', (reverse before).
        split; [|split; [apply Forall_reverse; exact Hafter|exact Hbad']].
        rewrite Heq, reverse_app, reverse_cons, <- app_assoc. reflexivity. }
      assert (Hloop0 : get_log_loop json_loads (reverse readlines) [] = inl e0).
      { apply get_log_loop_raises. exists good, bad, rest. auto. }
      congruence.
  - split; [discriminate|].
    intros (before & bad & after & Heq & Hbad & Hafter).
    assert (Hloop' : get_log_loop json_loads (reverse readlines) [] = inl e).
    { apply get_log_loop_raises. exists (reverse after), bad, (reverse before).
      split; [|split; [apply Forall_reverse; exact Hafter|exact Hbad]].
      rewrite Heq, reverse_app, reverse_cons, <- app_assoc. reflexivity. }
    congruence.
Qed.

End ViewsAndLogFacts.

(** ** Who writes the cache *)

Section CacheWriters.

Context {S : Type} `{Datastore S} `{BucketAdmin S}.
Variable isoformat : Z -> string.
Context {J : Type}.
Variable to_json_dict : Event.t -> J.

Lemma get_buckets_loop_keeps_cache (buckets : list (string * gmap string value)) :
  ∀ st : state S,
    last_event_cache (get_buckets_loop isoformat buckets st).1
    = last_event_cache st.
Proof.
  induction buckets as [|[b bucket] rest IH]; intros st; [reflexivity|].
  simpl. unfold bind at 1. unfold call at 1.
  destruct (db_get b 1 None None (db st)) as [s1 [err|last_events]];
    [reflexivity|].
  unfold bind at 1.
  specialize (IH (State (last_event_cache st) s1)).
  destruct (get_buckets_loop isoformat rest (State (last_event_cache st) s1))
    as [st2 [err|out]]; exact IH.
Qed.

(** X20. Only the heartbeat writes [last_event_cache]: whatever they
    return or raise, [get_buckets], [get_bucket_metadata], [create_bucket],
    [delete_bucket], [get_events] and [create_events] leave every cache
    entry as it was. *)
Theorem only_heartbeat_writes_the_cache (st : state S) :
  last_event_cache (get_buckets isoformat st).1 = last_event_cache st
  ∧ (∀ bucket_id,
       last_event_cache (get_bucket_metadata bucket_id st).1
       = last_event_cache st)
  ∧ (∀ now bucket_id event_type client hostname,
       last_event_cache
         (create_bucket now bucket_id event_type client hostname st).1
       = last_event_cache st)
  ∧ (∀ testing bucket_id,
       last_event_cache (delete_bucket testing bucket_id st).1
       = last_event_cache st)
  ∧ (∀ bucket_id limit start end_,
       last_event_cache
         (get_events to_json_dict bucket_id limit start end_ st).1
       = last_event_cache st)
  ∧ (∀ bucket_id events,
       last_event_cache (create_events bucket_id events st).1
       = last_event_cache st).
Proof.
  split.
  { unfold get_buckets, bind, call.
    destruct (db_bucket_dicts (db st)) as [s1 [err|buckets]]; [reflexivity|].
    apply (get_buckets_loop_keeps_cache buckets (State (last_event_cache st) s1)). }
  split.
  { intros bucket_id. apply check_bucket_exists_keeps_cache.
    intros st0. apply call_keeps_cache. }
  split.
  { intros now bucket_id event_type client hostname.
    unfold create_bucket, bind, call, raise, ret.
    destruct (db_buckets (db st)) as [s1 [err|bs]]; [reflexivity|].
    destruct (decide (bucket_id ∈ bs)) as [_|_]; [reflexivity|]. simpl.
    destruct (db_create_bucket bucket_id event_type client hostname now s1)
      as [s2 [err|[]]]; reflexivity. }
  split; [intros testing bucket_id; apply delete_bucket_keeps_cache|].
  split; [|intros bucket_id events; apply create_events_keeps_cache].
  intros bucket_id limit start end_. apply check_bucket_exists_keeps_cache.
  intros st0. unfold bind, call, ret.
  destruct (db_get bucket_id limit start end_ (db st0)) as [s1 [err|events]];
    reflexivity.
Qed.

End CacheWriters.

(** * The further properties at work on the datastore in memory *)

Import Fixtures.

Local Ltac fresh_entry :=
  unfold too_old; vm_compute; intros Hlt; discriminate Hlt.

Lemma last_event_answers_from_cache_witness :
  last_event_cache (warm []) !! "b"%string = Some stored_X
  ∧ ¬ (Event.timestamp stored_X + Event.duration stored_X
       < sec 110 - 60 * 1000000)
  ∧ Event.timestamp stored_X <= sec 105
  ∧ _last_event (sec 110) "b" (sec 105) (warm []) = (warm [], inr (Some stored_X)).
Proof.
  assert (Hc : last_event_cache (warm []) !! "b"%string = Some stored_X) by run.
  assert (Hfresh : ¬ (Event.timestamp stored_X + Event.duration stored_X
                      < sec 110 - 60 * 1000000))
    by (vm_compute; intros Hlt; discriminate Hlt).
  assert (Hle : Event.timestamp stored_X <= sec 105)
    by (vm_compute; discriminate).
  split; [exact Hc|]. split; [exact Hfresh|]. split; [exact Hle|].
  exact (proj1 (last_event_answers_from_cache (sec 110) "b" (sec 105) (warm [])
                  stored_X Hc Hfresh Hle)).
Defined.

Lemma last_event_answer_origin_witness :
  _last_event (sec 110) "b" (sec 105) (warm []) = (warm [], inr (Some stored_X))
  ∧ ((∃ cached,
         last_event_cache (warm []) !! "b"%string = Some cached
         ∧ ¬ too_old (sec 110) cached
         ∧ Event.timestamp cached <= sec 105
         ∧ Some stored_X = Some cached
         ∧ warm [] = warm [])
     ∨ (∃ s' events,
           db_get "b" 1 None (Some (sec 105)) (db (warm [])) = (s', inr events)
           ∧ Some stored_X = head events
           ∧ warm [] = State (cache_after_lookup (sec 110) "b"
                                (last_event_cache (warm []))) s'
           ∧ ∀ cached, last_event_cache (warm []) !! "b"%string = Some cached ->
                       too_old (sec 110) cached
                       ∨ Event.timestamp cached > sec 105)).
Proof.
  assert (Hrun : _last_event (sec 110) "b" (sec 105) (warm [])
                 = (warm [], inr (Some stored_X))) by run.
  split; [exact Hrun|].
  exact (last_event_answer_origin (sec 110) "b" (sec 105) (warm []) (warm [])
           (Some stored_X) Hrun).
Defined.

Lemma heartbeat_other_buckets_untouched_witness :
  heartbeat transforms.heartbeat_merge (sec 101) "b" (beat 100 (app "X"))
    (sec 5) cold
    = (after_first, inr (beat 100 (app "X")))
  ∧ "c"%string ≠ "b"%string
  ∧ last_event_cache after_first !! "c"%string
    = last_event_cache cold !! "c"%string.
Proof.
  assert (Hrun : heartbeat transforms.heartbeat_merge (sec 101) "b"
                   (beat 100 (app "X")) (sec 5) cold
                 = (after_first, inr (beat 100 (app "X")))) by run.
  assert (Hne : "c"%string ≠ "b"%string) by discriminate.
  split; [exact Hrun|]. split; [exact Hne|].
  exact (heartbeat_other_buckets_untouched transforms.heartbeat_merge (sec 101)
           "b" "c" (beat 100 (app "X")) (sec 5) cold after_first _ Hrun Hne).
Defined.

Lemma heartbeat_merge_replaces_witness :
  Event.data stored_X = Event.data (beat 105 (app "X"))
  ∧ transforms.heartbeat_merge stored_X (beat 105 (app "X")) (sec 5)
    = Some merged_X
  ∧ heartbeat transforms.heartbeat_merge (sec 106) "b" (beat 105 (app "X"))
      (sec 5) (warm []) =
      match db_replace "b" (Event.id stored_X) merged_X (db (warm [])) with
      | (s3, inl e) => (State (last_event_cache (warm [])) s3, inl e)
      | (s3, inr returned) =>
          (State (<["b"%string := merged_X]> (last_event_cache (warm []))) s3,
           inr merged_X)
      end.
Proof.
  assert (Hdata : Event.data stored_X = Event.data (beat 105 (app "X")))
    by reflexivity.
  assert (Hm : transforms.heartbeat_merge stored_X (beat 105 (app "X")) (sec 5)
               = Some merged_X) by run.
  split; [exact Hdata|]. split; [exact Hm|].
  refine (heartbeat_merge_replaces transforms.heartbeat_merge (sec 106) "b"
            (beat 105 (app "X")) (sec 5) (warm []) (warm []) (one_event [])
            (dom (MemoryStore.contents (one_event []))) stored_X merged_X
            _ _ _ Hdata Hm).
  - reflexivity.
  - listed.
  - run.
Defined.

Lemma check_bucket_exists_lets_through_witness :
  check_bucket_exists (fun bucket_id => call (db_metadata bucket_id)) "nope"
    (warm [])
    = (warm [],
       inl (BadRequest "NoSuchBucket" "There's no bucket named nope"))
  ∧ ∃ s1 bs, db_buckets (db (warm [])) = (s1, inr bs) ∧ ("nope"%string ∉ bs).
Proof.
  assert (Hrun : check_bucket_exists
                   (fun bucket_id => call (db_metadata bucket_id)) "nope"
                   (warm [])
                 = (warm [],
                    inl (BadRequest "NoSuchBucket"
                           "There's no bucket named nope"))) by run.
  split; [exact Hrun|].
  assert (Hlist : db_buckets (db (warm []))
                  = (one_event [], inr (dom (MemoryStore.contents (one_event [])))))
    by reflexivity.
  destruct (check_bucket_exists_lets_through
              (fun bucket_id => call (db_metadata bucket_id)) "nope"
              (warm []) (warm []) _ Hrun)
    as [(s1 & bs & Hb & Hin & _) | [(s1 & bs & Hb & Hout & _)
                                   | (s1 & e & Hb & _)]].
  - exfalso. rewrite Hlist in Hb. injection Hb as <- <-.
    apply (bool_decide_pack _) in Hin. vm_compute in Hin. exact Hin.
  - exists s1, bs. split; [exact Hb|exact Hout].
  - exfalso. rewrite Hlist in Hb. discriminate Hb.
Defined.

Lemma heartbeat_served_from_cache_witness :
  last_event_cache (warm []) !! "b"%string = Some stored_X
  ∧ ¬ too_old (sec 106) stored_X
  ∧ Event.timestamp stored_X <= Event.timestamp (beat 105 (app "X"))
  ∧ heartbeat transforms.heartbeat_merge (sec 106) "b" (beat 105 (app "X"))
      (sec 5) (warm [])
    = (State {[ "b"%string := merged_X ]}
         (MemoryStore.mk {[ "b"%string := [merged_X] ]} 1 []),
       inr merged_X).
Proof.
  assert (Hc : last_event_cache (warm []) !! "b"%string = Some stored_X) by run.
  assert (Hfresh : ¬ too_old (sec 106) stored_X) by fresh_entry.
  assert (Hle : Event.timestamp stored_X <= Event.timestamp (beat 105 (app "X")))
    by (vm_compute; discriminate).
  split; [exact Hc|]. split; [exact Hfresh|]. split; [exact Hle|].
  assert (Hb : db_buckets (db (warm []))
               = (one_event [], inr (dom (MemoryStore.contents (one_event [])))))
    by reflexivity.
  assert (Hin : "b"%string ∈ dom (MemoryStore.contents (one_event [])))
    by listed.
  rewrite (heartbeat_served_from_cache transforms.heartbeat_merge (sec 106) "b"
             (beat 105 (app "X")) (sec 5) (warm []) (one_event [])
             (dom (MemoryStore.contents (one_event []))) stored_X
             Hb Hin Hc Hfresh Hle).
  run.
Defined.

Lemma heartbeat_call_sequence_witness :
  ∃ st',
    heartbeat transforms.heartbeat_merge (sec 106) "b" (beat 105 (app "X"))
      (sec 5) traced_warm = (st', inr merged_X)
    ∧ ∃ reads writes,
        Traced.log (db st')
          = Traced.log (db traced_warm) ++ Traced.Buckets :: reads ++ writes
        ∧ (reads = []
           ∨ reads = [Traced.Get "b" 1 None
                        (Some (Event.timestamp (beat 105 (app "X"))))])
        ∧ ((writes = [Traced.Insert "b" (beat 105 (app "X"))]
            ∧ merged_X = beat 105 (app "X"))
           ∨ ∃ i, writes = [Traced.Replace "b" i merged_X]).
Proof.
  eexists. 
  assert (Hrun : heartbeat transforms.heartbeat_merge (sec 106) "b"
                   (beat 105 (app "X")) (sec 5) traced_warm
                 = (State {[ "b"%string := merged_X ]}
                      (Traced.mk
                         (MemoryStore.mk {[ "b"%string := [merged_X] ]} 1 [])
                         [Traced.Buckets;
                          Traced.Replace "b" (Some 0) merged_X]),
                    inr merged_X)) by run.
  split; [exact Hrun|].
  exact (heartbeat_call_sequence transforms.heartbeat_merge (sec 106) "b"
           (beat 105 (app "X")) (sec 5) traced_warm _ _ Hrun).
Defined.

Lemma heartbeat_resubmitted_witness :
  last_event_cache after_first !! "b"%string = Some (beat 100 (app "X"))
  ∧ ¬ too_old (sec 102) (beat 100 (app "X"))
  ∧ Event.duration (beat 100 (app "X")) = 0
  ∧ 0 <= sec 5
  ∧ heartbeat transforms.heartbeat_merge (sec 102) "b" (beat 100 (app "X"))
      (sec 5) after_first =
      match db_replace "b" (Event.id (beat 100 (app "X"))) (beat 100 (app "X"))
              (db after_first) with
      | (s3, inl e) => (State (last_event_cache after_first) s3, inl e)
      | (s3, inr returned) =>
          (State (last_event_cache after_first) s3, inr (beat 100 (app "X")))
      end.
Proof.
  assert (Hc : last_event_cache after_first !! "b"%string
               = Some (beat 100 (app "X"))) by run.
  assert (Hfresh : ¬ too_old (sec 102) (beat 100 (app "X"))) by fresh_entry.
  assert (Hzero : Event.duration (beat 100 (app "X")) = 0) by reflexivity.
  assert (Hpulse : 0 <= sec 5) by (vm_compute; discriminate).
  split; [exact Hc|]. split; [exact Hfresh|]. split; [exact Hzero|].
  split; [exact Hpulse|].
  refine (heartbeat_resubmitted (sec 102) "b" (beat 100 (app "X")) (sec 5)
            after_first (db after_first)
            (dom (MemoryStore.contents (db after_first)))
            _ _ Hc Hfresh Hzero Hpulse).
  - reflexivity.
  - listed.
Defined.

Lemma delete_bucket_leaves_cached_event_witness :
  delete_bucket true "b" (warm []) = (after_delete, inr tt)
  ∧ last_event_cache after_delete = last_event_cache (warm [])
  ∧ _last_event (sec 106) "b" (sec 105) after_delete
    = (after_delete, inr (Some stored_X)).
Proof.
  assert (Hrun : delete_bucket true "b" (warm []) = (after_delete, inr tt))
    by run.
  split; [exact Hrun|].
  refine (delete_bucket_leaves_cached_event (sec 106) "b" (sec 105) (warm [])
            after_delete stored_X Hrun _ _ _).
  - run.
  - fresh_entry.
  - vm_compute; discriminate.
Defined.

Lemma create_events_bypasses_cache_witness :
  create_events "b" [beat 104 (app "Y")] (warm [])
    = (State {[ "b"%string := stored_X ]}
         (MemoryStore.mk
            {[ "b"%string := [Event.mk (Some 1) (sec 104) 0 (app "Y"); stored_X] ]}
            2 []),
       inr (Some (Event.mk (Some 1) (sec 104) 0 (app "Y"))))
  ∧ _last_event (sec 106) "b" (sec 105)
      (State {[ "b"%string := stored_X ]}
         (MemoryStore.mk
            {[ "b"%string := [Event.mk (Some 1) (sec 104) 0 (app "Y"); stored_X] ]}
            2 []))
    = (State {[ "b"%string := stored_X ]}
         (MemoryStore.mk
            {[ "b"%string := [Event.mk (Some 1) (sec 104) 0 (app "Y"); stored_X] ]}
            2 []),
       inr (Some stored_X)).
Proof.
  assert (Hrun : create_events "b" [beat 104 (app "Y")] (warm [])
    = (State {[ "b"%string := stored_X ]}
         (MemoryStore.mk
            {[ "b"%string := [Event.mk (Some 1) (sec 104) 0 (app "Y"); stored_X] ]}
            2 []),
       inr (Some (Event.mk (Some 1) (sec 104) 0 (app "Y"))))) by run.
  split; [exact Hrun|].
  refine (proj2 (create_events_bypasses_cache (sec 106) "b"
                   [beat 104 (app "Y")] (sec 105) (warm []) _ _ stored_X
                   Hrun _ _ _)).
  - run.
  - fresh_entry.
  - vm_compute; discriminate.
Defined.

Lemma create_events_dispatch_witness :
  length ([] : list Event.t) ≠ 1%nat
  ∧ create_events "b" [] (warm []) =
      match db_insert_list "b" [] (one_event []) with
      | (s2, r) => (State (last_event_cache (warm [])) s2, r)
      end.
Proof.
  assert (Hlen : length ([] : list Event.t) ≠ 1%nat) by discriminate.
  split; [exact Hlen|].
  refine (proj2 (create_events_dispatch "b" [] (warm []) (one_event [])
                   (dom (MemoryStore.contents (one_event []))) _ _) Hlen).
  - reflexivity.
  - listed.
Defined.

Lemma create_bucket_then_witness :
  create_bucket (sec 1) "c" "currentwindow" "aw-watcher-window" "host" cold
    = (State ∅ two_buckets, inr tt)
  ∧ create_bucket (sec 2) "c" "afkstatus" "aw-watcher-afk" "host"
      (State ∅ two_buckets)
    = (State (last_event_cache cold) two_buckets,
       inl (BadRequest "BucketExists"
              "A bucket with this name already exists, cannot create it")).
Proof.
  assert (Hrun : create_bucket (sec 1) "c" "currentwindow" "aw-watcher-window"
                   "host" cold = (State ∅ two_buckets, inr tt)) by run.
  split; [exact Hrun|].
  refine (proj1 (proj2 (create_bucket_then transforms.heartbeat_merge
            (sec 1) (sec 2) "c" "currentwindow" "aw-watcher-window" "host"
            "afkstatus" "aw-watcher-afk" "host" (beat 3 (app "X")) (sec 5)
            cold (State ∅ two_buckets) two_buckets
            (dom (MemoryStore.contents two_buckets)) Hrun _ _))).
  - reflexivity.
  - listed.
Defined.

Lemma get_buckets_listing_witness :
  get_buckets stamp (warm [])
    = (warm [],
       inr [("b"%string,
             ({[ "last_updated"%string := VStr "103000000" ]}
                : gmap string value))])
  ∧ ∃ s1 buckets,
      db_bucket_dicts (db (warm [])) = (s1, inr buckets)
      ∧ Forall2 (bucket_listed stamp) buckets
          [("b"%string,
            ({[ "last_updated"%string := VStr "103000000" ]}
               : gmap string value))]
      ∧ [("b"%string,
          ({[ "last_updated"%string := VStr "103000000" ]}
             : gmap string value))].*1 = buckets.*1
      ∧ last_event_cache (warm []) = last_event_cache (warm []).
Proof.
  assert (Hrun : get_buckets stamp (warm [])
    = (warm [],
       inr [("b"%string,
             ({[ "last_updated"%string := VStr "103000000" ]}
                : gmap string value))])) by run.
  split; [exact Hrun|].
  exact (get_buckets_listing stamp (warm []) (warm []) _ Hrun).
Defined.

Lemma get_buckets_last_updated_witness :
  db_bucket_dicts (db (warm []))
    = (one_event [], inr [("b"%string, (∅ : gmap string value))])
  ∧ get_buckets stamp (warm [])
    = (State (last_event_cache (warm [])) (one_event []),
       inr (with_last_updated stamp (one_event [])
              <$> [("b"%string, (∅ : gmap string value))])).
Proof.
  assert (Hb : db_bucket_dicts (db (warm []))
               = (one_event [], inr [("b"%string, (∅ : gmap string value))]))
    by run.
  split; [exact Hb|].
  refine (get_buckets_last_updated stamp (warm []) (one_event []) _ Hb _).
  intros item Hitem. apply list_elem_of_singleton in Hitem. subst item.
  exists [stored_X]. run.
Defined.

Lemma get_log_returns_witness :
  get_log parse ["ab"; "c"; "def"]%string = inr ([3; 1; 2]%nat, 200)
  ∧ Forall2 (fun line entry => parse line = inr entry)
      (reverse ["ab"; "c"; "def"]%string) [3; 1; 2]%nat.
Proof.
  assert (Hrun : get_log parse ["ab"; "c"; "def"]%string
                 = inr ([3; 1; 2]%nat, 200)) by run.
  split; [exact Hrun|].
  exact (proj2 (proj1 (get_log_returns parse ["ab"; "c"; "def"]%string
                         [3; 1; 2]%nat 200) Hrun)).
Defined.

Lemma get_log_raises_witness :
  get_log parse ["ab"; ""; "def"]%string = inl "Expecting value"%string
  ∧ ∃ before bad after,
      ["ab"; ""; "def"]%string = before ++ bad :: after
      ∧ parse bad = inl "Expecting value"%string
      ∧ Forall (fun line => ∃ entry, parse line = inr entry) after.
Proof.
  assert (Hrun : get_log parse ["ab"; ""; "def"]%string
                 = inl "Expecting value"%string) by run.
  split; [exact Hrun|].
  exact (proj1 (get_log_raises parse ["ab"; ""; "def"]%string
                  "Expecting value"%string) Hrun).
Defined.

(** The cached event holds [{"n": 1}] and the heartbeat [{"n": True}]: the
    data are [==], and the call replaces. *)
Example heartbeat_int_bool_merges :
  Traced.log
    (db (heartbeat transforms.heartbeat_merge (sec 102) "b"
           (Event.mk None (sec 101) 0 {[ "n"%string := VBool true ]}) (sec 5)
           counted).1)
  = [ Traced.Buckets;
      Traced.Replace "b" (Some 0)
        (Event.mk (Some 0) (sec 100) (sec 1) {[ "n"%string := VInt 1 ]}) ].
Proof. run. Qed.
